(** * The agent tool-calling loop of ai-agents-guide

    A shallow embedding of [agents/base-agent.js] (class [BaseAgent]),
    of the dispatch loop of [agents/07_orchestrator_pattern.js]
    (class [Orchestrator]) and of [agents/17_debate_multi_agent.js]
    ([runDebate]), followed by the properties of the loop: step budget,
    fault isolation, ordering of tool results, reset, debate wiring.

    Conventions of the embedding.
    - An [async] call is described by how its promise settles: fulfilled
      or rejected after a number of milliseconds, or never ([Settle]).
      A synchronous return or throw settles after 0 ms.  [await] on a
      promise that was started when the promise was created advances the
      clock ([now], the value of [Date.now()]) to the settling time.
    - What is thrown is an [Error] with its message, or any other
      value, [null] and [undefined] included ([Thrown]).
    - The hosted model (the [@google/generative-ai] SDK and the service
      behind it) is not code of this repository.  It is a parameter: a
      state machine [generateContent] that receives each request and
      answers with the [parts] of its first candidate.  The chat session
      of the SDK is modelled by what it does for this program:
      [startChat] starts from an empty history, [sendMessage] sends the
      history followed by the new content and, when the model answers
      with a response the SDK holds valid, appends both the new content
      and the answer to the history.
    - What the JavaScript engine does and this development does not
      spell out is a parameter too ([Engine]): [JSON.stringify], the
      digits of a number, the text of its own [TypeError]s, and what
      the members of [Object.prototype] do when they are called as
      plain functions.
    - Step counts ([maxSteps], [stepCount], [totalCalls], the debate's
      [rounds]) are integers.
    - An object used as a table ([toolFns], [workers]) is an object
      literal: the list of its own properties in insertion order, each
      key once, on top of what it inherits from [Object.prototype].
    - [console.log] output is not modelled; the arguments of the call
      are evaluated all the same, and what they throw is modelled. *)

From Stdlib Require Import ZArith String Ascii List Lia PrimFloat.
From stdpp Require Import base list strings pretty.

Open Scope Z_scope.

(** ** JavaScript values, promises and completions *)

Module Js.

(** The values of tool arguments and tool results: JSON-like data and
    [undefined].  A number is an IEEE 754 double. *)
#[local] Set Warnings "-register-all".
Inductive JsValue : Type :=
| JsUndefined
| JsNull
| JsBool (b : bool)
| JsNum (x : float)
| JsStr (s : string)
| JsArr (items : list JsValue)
| JsObj (fields : list (string * JsValue)).

(** [if (v)]: zero of either sign and [NaN] are falsy. *)
Definition truthy (v : JsValue) : bool :=
  match v with
  | JsUndefined | JsNull => false
  | JsBool b => b
  | JsNum x => negb (PrimFloat.eqb x 0%float || PrimFloat.is_nan x)
  | JsStr s => negb (String.eqb s "")
  | JsArr _ | JsObj _ => true
  end.

(** [v === null || v === undefined] *)
Definition nullish (v : JsValue) : bool :=
  match v with
  | JsUndefined | JsNull => true
  | _ => false
  end.

(** The line feed and the double quote of template literals. *)
Definition nl : string := String (ascii_of_nat 10) EmptyString.
Definition dq : string := String (ascii_of_nat 34) EmptyString.

(** [s.includes(t)] *)
Definition includes (t s : string) : Prop :=
  exists pre post : string, s = pre +:+ t +:+ post.

(** What a [throw] throws or a promise is rejected with: an [Error]
    object (of any class) with its [message], or any other value. *)
Inductive Thrown : Type :=
| JsError (message : string)
| JsThrown (v : JsValue).

(** How the promise of a call settles. *)
Inductive Settle (A : Type) : Type :=
| Fulfilled (ms : nat) (v : A)
| Rejected (ms : nat) (err : Thrown)
| Pending.
Arguments Fulfilled {A} ms v.
Arguments Rejected {A} ms err.
Arguments Pending {A}.

(** The time a call takes to settle. *)
Definition latency {A : Type} (s : Settle A) : nat :=
  match s with
  | Fulfilled ms _ | Rejected ms _ => ms
  | Pending => 0%nat
  end.

(** What a call settles to, whenever that is. *)
Definition outcome {A : Type} (s : Settle A) : option (A + Thrown) :=
  match s with
  | Fulfilled _ v => Some (inl v)
  | Rejected _ err => Some (inr err)
  | Pending => None
  end.

(** How a call of an [async] method of this program ends. *)
Inductive Completion (R : Type) : Type :=
| Returned (r : R)
| Threw (err : Thrown)
| Hangs.
Arguments Returned {R} r.
Arguments Threw {R} err.
Arguments Hangs {R}.

(** [Promise.all(ps)] for promises started at the same instant: it is
    rejected as soon as one of them is, with that one's reason;
    otherwise it is fulfilled, when the last one is, with the values
    in the order of [ps]. *)
Fixpoint promiseAll {A : Type} (ps : list (Settle A)) : Settle (list A) :=
  match ps with
  | [] => Fulfilled 0 []
  | p :: rest =>
      match p, promiseAll rest with
      | Fulfilled m v, Fulfilled n vs => Fulfilled (Nat.max m n) (v :: vs)
      | Fulfilled _ _, Rejected n e => Rejected n e
      | Fulfilled _ _, Pending => Pending
      | Rejected m e, Rejected n e' =>
          if (m <=? n)%nat then Rejected m e else Rejected n e'
      | Rejected m e, _ => Rejected m e
      | Pending, Rejected n e => Rejected n e
      | Pending, _ => Pending
      end
  end.

(** The own property [key] of an object, if it has one. *)
Fixpoint getOwn {V : Type} (key : string) (obj : list (string * V)) : option V :=
  match obj with
  | [] => None
  | (k, v) :: rest => if String.eqb k key then Some v else getOwn key rest
  end.

(** The names of the members of [Object.prototype]: what every object
    literal inherits. *)
Definition objectPrototype : list string :=
  ["constructor"; "__defineGetter__"; "__defineSetter__"; "hasOwnProperty";
   "__lookupGetter__"; "__lookupSetter__"; "isPrototypeOf"; "propertyIsEnumerable";
   "toString"; "valueOf"; "__proto__"; "toLocaleString"].

Definition inherited (key : string) : bool :=
  existsb (String.eqb key) objectPrototype.

(** What [obj[key]] finds on an object literal used as a table: an own
    property, else a member inherited from [Object.prototype] (a
    function, or for [__proto__] the prototype itself: all truthy),
    else nothing ([undefined]). *)
Inductive Member (V : Type) : Type :=
| Own (v : V)
| Inherited
| Absent.
Arguments Own {V} v.
Arguments Inherited {V}.
Arguments Absent {V}.

Definition member {V : Type} (key : string) (obj : list (string * V)) : Member V :=
  match getOwn key obj with
  | Some v => Own v
  | None => if inherited key then Inherited else Absent
  end.

(** The value of a string of decimal digits. *)
Fixpoint digits (s : string) (acc : N) : option N :=
  match s with
  | EmptyString => Some acc
  | String c rest =>
      let n := N_of_ascii c in
      if ((48 <=? n) && (n <=? 57))%N then digits rest (10 * acc + (n - 48))%N else None
  end.

(** A key that is an array index: the canonical decimal form of an
    integer below [2^32 - 1]. *)
Definition arrayIndex (key : string) : option N :=
  match key with
  | EmptyString => None
  | String c _ =>
      match digits key 0 with
      | Some n =>
          if (String.eqb key "0" || negb (Ascii.eqb c "0"%char)) && (n <? 4294967295)%N
          then Some n else None
      | None => None
      end
  end.

Fixpoint insertIndex (x : N * string) (l : list (N * string)) : list (N * string) :=
  match l with
  | [] => [x]
  | y :: rest => if (x.1 <=? y.1)%N then x :: l else y :: insertIndex x rest
  end.

(** [Object.keys(obj)]: the keys that are array indices in ascending
    order, then the other keys in insertion order. *)
Definition keys {V : Type} (obj : list (string * V)) : list string :=
  let ks := map fst obj in
  map snd (foldr insertIndex [] (omap (fun k => (fun n => (n, k)) <$> arrayIndex k) ks))
  ++ omap (fun k => match arrayIndex k with Some _ => None | None => Some k end) ks.

(** [v.key], and [const { key } = v], for a key that none of the
    prototypes of data defines ([message], [worker], [task]): [None]
    when [v] is [null] or [undefined] and the access throws. *)
Definition prop (v : JsValue) (key : string) : option JsValue :=
  match v with
  | JsUndefined | JsNull => None
  | JsObj fields => Some (default JsUndefined (getOwn key fields))
  | _ => Some JsUndefined
  end.

(** [err.message] *)
Definition messageOf (err : Thrown) : option JsValue :=
  match err with
  | JsError message => Some (JsStr message)
  | JsThrown v => prop v "message"
  end.

(** What makes the engine throw a [TypeError] in this program. *)
Inductive Fault : Type :=
| ReadOfNullish (v : JsValue) (key : string)
| Destructuring (v : JsValue)
| NotAFunction (v : JsValue) (key : string)
| NotPrimitive (v : JsValue).

(** The engine: [JSON.stringify(v, null, 2)]; a number inside a
    template literal; the same for an integer count beyond the safe
    integers; the message of a [TypeError] of the engine; and what the
    member [key] of [Object.prototype] does when called as a plain
    function with one argument: the value it returns, or the message
    of the [TypeError] it throws. *)
Record Engine : Type :=
  { stringify : JsValue -> string;
    numberText : float -> string;
    integerText : Z -> string;
    typeErrorText : Fault -> string;
    callInherited : string -> JsValue -> JsValue + string }.

(** An integer count inside a template literal: its decimal digits
    within the safe integers. *)
Definition countText (engine : Engine) (n : Z) : string :=
  if Z.abs n <=? 9007199254740991 then pretty n else integerText engine n.

(** A value inside a template literal, or as a property key: [None]
    when the conversion throws, as it does for an object with an own
    [toString] that is data. *)
Fixpoint toStr (engine : Engine) (v : JsValue) : option string :=
  match v with
  | JsUndefined => Some "undefined"
  | JsNull => Some "null"
  | JsBool b => Some (if b then "true" else "false")
  | JsNum x => Some (numberText engine x)
  | JsStr s => Some s
  | JsArr items =>
      String.concat ","
        <$> (fix join (l : list JsValue) : option (list string) :=
               match l with
               | [] => Some []
               | item :: rest =>
                   match (if nullish item then Some "" else toStr engine item), join rest with
                   | Some s, Some ss => Some (s :: ss)
                   | _, _ => None
                   end
               end) items
  | JsObj fields =>
      match getOwn "toString" fields with
      | Some _ => None
      | None => Some "[object Object]"
      end
  end.

End Js.
Import Js.

(** ** The model gateway: requests, responses and chat sessions *)

Module Gemini.

Record FunctionCall (Args : Type) : Type :=
  { fc_name : string; fc_args : Args }.
Arguments fc_name {Args} _.
Arguments fc_args {Args} _.

Record FunctionResponse : Type :=
  { fr_name : string; fr_response : JsValue }.

(** One part of a content: an object whose fields [text],
    [functionCall] and [functionResponse] may each be present. *)
Record Part (Args : Type) : Type :=
  { text : option string;
    functionCall : option (FunctionCall Args);
    functionResponse : option FunctionResponse }.
Arguments Build_Part {Args} _ _ _.
Arguments text {Args} _.
Arguments functionCall {Args} _.
Arguments functionResponse {Args} _.

Definition textPart {Args : Type} (s : string) : Part Args :=
  Build_Part (Some s) None None.
Definition callPart {Args : Type} (name : string) (args : Args) : Part Args :=
  Build_Part None (Some {| fc_name := name; fc_args := args |}) None.
(** [{ functionResponse: { name, response } }] *)
Definition responsePart {Args : Type} (name : string) (response : JsValue) : Part Args :=
  Build_Part None None (Some {| fr_name := name; fr_response := response |}).

Inductive Role : Type := User | Model | Function.

Record Content (Args : Type) : Type :=
  { role : Role; parts : list (Part Args) }.
Arguments Build_Content {Args} _ _.
Arguments role {Args} _.
Arguments parts {Args} _.

(** A function declaration handed to the model. *)
Record ToolDecl : Type :=
  { td_name : string; td_description : string; td_parameters : JsValue }.

(** [genAI.getGenerativeModel({ model, systemInstruction, tools })];
    [gm_tools] is [undefined] or the declarations of the single
    [{ functionDeclarations }] group. *)
Record GenerativeModel : Type :=
  { gm_model : string;
    gm_systemInstruction : string;
    gm_tools : option (list ToolDecl) }.

(** What one round-trip hands to the model. *)
Record Request (Args : Type) : Type :=
  { rq_model : GenerativeModel; contents : list (Content Args) }.
Arguments Build_Request {Args} _ _.
Arguments rq_model {Args} _.
Arguments contents {Args} _.

Record ChatSession (Args : Type) : Type :=
  { cs_model : GenerativeModel; history : list (Content Args) }.
Arguments Build_ChatSession {Args} _ _.
Arguments cs_model {Args} _.
Arguments history {Args} _.

(** [model.startChat()] *)
Definition startChat {Args : Type} (m : GenerativeModel) : ChatSession Args :=
  {| cs_model := m; history := [] |}.

(** What this program passes to [chat.sendMessage]: a string, or the
    array of function responses of one round. *)
Inductive Message (Args : Type) : Type :=
| MsgText (s : string)
| MsgParts (ps : list (Part Args)).
Arguments MsgText {Args} s.
Arguments MsgParts {Args} ps.

Definition formatNewContent {Args : Type} (m : Message Args) : Content Args :=
  match m with
  | MsgText s => {| role := User; parts := [textPart s] |}
  | MsgParts ps => {| role := Function; parts := ps |}
  end.

(** [parts.filter((p) => p.functionCall)], each with its
    [p.functionCall] taken out. *)
Definition functionCalls {Args : Type} (ps : list (Part Args)) : list (FunctionCall Args) :=
  omap functionCall ps.

(** [parts.map((p) => p.text || "").join("")] *)
Definition joinTexts {Args : Type} (ps : list (Part Args)) : string :=
  String.concat "" (map (fun p => default "" (text p)) ps).

(** The SDK's test of a part of a response: the part is not the empty
    object, and its text, if it has one, is not the empty string. *)
Definition validPart {Args : Type} (p : Part Args) : bool :=
  match text p, functionCall p, functionResponse p with
  | Some s, _, _ => negb (String.eqb s "")
  | None, None, None => false
  | None, _, _ => true
  end.

(** The SDK's [isValidResponse]: there is at least one part, and every
    part passes. *)
Definition isValidResponse {Args : Type} (ps : list (Part Args)) : bool :=
  match ps with
  | [] => false
  | _ => forallb validPart ps
  end.

Section Gateway.
Context {G Args : Type}.

(** The world outside the agent object: the clock, the state of the
    model service, and two records kept for stating properties: the
    requests that reached the model and the tool calls that were
    dispatched, each with the time at which it was started, both in
    order. *)
Record World : Type :=
  { now : nat;
    gw : G;
    sent : list (Request Args);
    dispatched : list (nat * FunctionCall Args) }.

Definition tick (ms : nat) (w : World) : World :=
  {| now := (now w + ms)%nat; gw := gw w; sent := sent w;
     dispatched := dispatched w |}.

Definition noteDispatch (c : FunctionCall Args) (w : World) : World :=
  {| now := now w; gw := gw w; sent := sent w;
     dispatched := dispatched w ++ [(now w, c)] |}.

Variable generateContent : G -> Request Args -> G * Settle (list (Part Args)).

(** [await chat.sendMessage(m)]: the exchange goes into the history
    only when the response is valid. *)
Definition sendMessage (c : ChatSession Args) (w : World) (m : Message Args)
  : ChatSession Args * World * Settle (list (Part Args)) :=
  let newContent := formatNewContent m in
  let rq := {| rq_model := cs_model c; contents := history c ++ [newContent] |} in
  let '(g', answer) := generateContent (gw w) rq in
  let w1 := {| now := now w; gw := g'; sent := sent w ++ [rq];
               dispatched := dispatched w |} in
  match answer with
  | Fulfilled ms ps =>
      ({| cs_model := cs_model c;
          history := if isValidResponse ps
                     then history c ++ [newContent; {| role := Model; parts := ps |}]
                     else history c |},
       tick ms w1, answer)
  | Rejected ms _ => (c, tick ms w1, answer)
  | Pending => (c, w1, answer)
  end.
End Gateway.
Arguments World : clear implicits.

End Gemini.
Import Gemini.

(** ** [BaseAgent]: the reusable agent loop (base-agent.js) *)

Module BaseAgent.

(** A tool implementation: called with the model's arguments, it
    returns or throws, at once or through a promise. *)
Definition ToolFn : Type := JsValue -> Settle JsValue.

(** The argument of the constructor; [None] is an omitted field. *)
Record AgentConfig : Type :=
  { cfg_name : string;
    cfg_systemPrompt : string;
    cfg_tools : option (list ToolDecl);
    cfg_toolFns : option (list (string * ToolFn));
    cfg_model : option string;
    cfg_maxSteps : option Z;
    cfg_verbose : option bool }.

Record Agent : Type :=
  { name : string;
    toolFns : list (string * ToolFn);
    maxSteps : Z;
    verbose : bool;
    stepCount : Z;
    totalCalls : Z;
    geminiModel : GenerativeModel;
    chat : ChatSession JsValue }.

Definition constructor (cfg : AgentConfig) : Agent :=
  let tools := default [] (cfg_tools cfg) in
  let geminiModel :=
    {| gm_model := default "gemini-1.5-flash" (cfg_model cfg);
       gm_systemInstruction := cfg_systemPrompt cfg;
       gm_tools := if (0 <? length tools)%nat then Some tools else None |} in
  {| name := cfg_name cfg;
     toolFns := default [] (cfg_toolFns cfg);
     maxSteps := default 20 (cfg_maxSteps cfg);
     verbose := default true (cfg_verbose cfg);
     stepCount := 0;
     totalCalls := 0;
     geminiModel := geminiModel;
     chat := startChat geminiModel |}.

Definition set_stepCount (n : Z) (a : Agent) : Agent :=
  {| name := name a; toolFns := toolFns a; maxSteps := maxSteps a;
     verbose := verbose a; stepCount := n; totalCalls := totalCalls a;
     geminiModel := geminiModel a; chat := chat a |}.

Definition set_totalCalls (n : Z) (a : Agent) : Agent :=
  {| name := name a; toolFns := toolFns a; maxSteps := maxSteps a;
     verbose := verbose a; stepCount := stepCount a; totalCalls := n;
     geminiModel := geminiModel a; chat := chat a |}.

Definition set_chat (c : ChatSession JsValue) (a : Agent) : Agent :=
  {| name := name a; toolFns := toolFns a; maxSteps := maxSteps a;
     verbose := verbose a; stepCount := stepCount a;
     totalCalls := totalCalls a; geminiModel := geminiModel a; chat := c |}.

(** What [run] resolves to: [{ success: true, response, steps, elapsed }]
    or [{ success: false, error, steps }].  [elapsed] is kept in
    milliseconds; the source prints it in seconds with one decimal. *)
Inductive RunResult : Type :=
| Success (response : string) (steps : Z) (elapsed : nat)
| Failure (error : string) (steps : Z).

Definition success (r : RunResult) : bool :=
  match r with Success _ _ _ => true | Failure _ _ => false end.

Definition steps (r : RunResult) : Z :=
  match r with Success _ n _ => n | Failure _ n => n end.

(** The message of the error thrown for a name under which
    [toolFns[name]] finds nothing. *)
Definition unknownToolMessage (fns : list (string * ToolFn)) (name : string) : string :=
  "Unknown tool: " +:+ dq +:+ name +:+ dq +:+ ". Available: "
    +:+ String.concat ", " (keys fns).

(** [{ error: err.message, tool: name }] *)
Definition errorPayload (message : JsValue) (name : string) : JsValue :=
  JsObj [("error", message); ("tool", JsStr name)].

Section Run.
Context {G : Type}.
Variable generateContent : G -> Request JsValue -> G * Settle (list (Part JsValue)).
Variable engine : Engine.

(** The body of the [try] block for one call: look [toolFns[name]]
    up, throw if it finds nothing, else call what it found and await
    the result.  What it finds may be a member inherited from
    [Object.prototype]; calling that returns or throws at once. *)
Definition invoke (fns : list (string * ToolFn)) (c : FunctionCall JsValue) : Settle JsValue :=
  match member (fc_name c) fns with
  | Own fn => fn (fc_args c)
  | Inherited =>
      match callInherited engine (fc_name c) (fc_args c) with
      | inl result => Fulfilled 0 result
      | inr message => Rejected 0 (JsError message)
      end
  | Absent => Rejected 0 (JsError (unknownToolMessage fns (fc_name c)))
  end.

(** The [catch (err)] block for the call of [name]: it reads
    [err.message], prints it into the log line and builds the payload.
    Reading the message of [null] or [undefined] throws, and so does
    printing a message that cannot be converted to a string; the
    [TypeError] leaves the block. *)
Definition caught (err : Thrown) (name : string) : JsValue + Thrown :=
  match messageOf err with
  | Some message =>
      match toStr engine message with
      | Some _ => inl (errorPayload message name)
      | None => inr (JsError (typeErrorText engine (NotPrimitive message)))
      end
  | None =>
      inr (JsError (typeErrorText engine
                      (ReadOfNullish (match err with JsThrown v => v | JsError _ => JsUndefined end)
                         "message")))
  end.

(** The [for (const p of calls)] loop: one call after the other, each
    awaited before the next one starts.  It ends with the results,
    with what left a [catch] block, or never if a tool never
    settles. *)
Fixpoint executeCalls (a : Agent) (w : World G JsValue)
    (calls : list (FunctionCall JsValue)) (toolResults : list (Part JsValue))
  : Agent * World G JsValue * Completion (list (Part JsValue)) :=
  match calls with
  | [] => (a, w, Returned toolResults)
  | c :: rest =>
      let a1 := set_totalCalls (totalCalls a + 1) a in
      let w1 := noteDispatch c w in
      match invoke (toolFns a1) c with
      | Fulfilled ms result =>
          executeCalls a1 (tick ms w1) rest (toolResults ++ [responsePart (fc_name c) result])
      | Rejected ms err =>
          match caught err (fc_name c) with
          | inl payload =>
              executeCalls a1 (tick ms w1) rest
                (toolResults ++ [responsePart (fc_name c) payload])
          | inr typeError => (a1, tick ms w1, Threw typeError)
          end
      | Pending => (a1, w1, Hangs)
      end
  end.

(** [`Max steps (${this.maxSteps}) reached`] *)
Definition maxStepsMessage (n : Z) : string :=
  "Max steps (" +:+ countText engine n +:+ ") reached".

Definition failure (a : Agent) : RunResult :=
  Failure (maxStepsMessage (maxSteps a)) (stepCount a).

(** What one pass through the body of the [while] loop leads to: a
    [return], or the next iteration with a new response. *)
Inductive Next : Type :=
| Done (c : Completion RunResult)
| Continue (response' : list (Part JsValue)).

(** The body of the [while] loop. *)
Definition turn (a : Agent) (w : World G JsValue) (startTime : nat)
    (response : list (Part JsValue))
  : Agent * World G JsValue * Next :=
  let a1 := set_stepCount (stepCount a + 1) a in
  match functionCalls response with
  | [] =>
      (a1, w, Done (Returned (Success (joinTexts response) (stepCount a1)
                                      (now w - startTime))))
  | calls =>
      match executeCalls a1 w calls [] with
      | (a2, w2, Hangs) => (a2, w2, Done Hangs)
      | (a2, w2, Threw err) => (a2, w2, Done (Threw err))
      | (a2, w2, Returned toolResults) =>
          match sendMessage generateContent (chat a2) w2 (MsgParts toolResults) with
          | (c3, w3, Fulfilled _ response') => (set_chat c3 a2, w3, Continue response')
          | (c3, w3, Rejected _ err) => (set_chat c3 a2, w3, Done (Threw err))
          | (c3, w3, Pending) => (set_chat c3 a2, w3, Done Hangs)
          end
      end
  end.

(** The [while (this.stepCount < this.maxSteps)] loop and the return
    that follows it.  [remaining] is [maxSteps - stepCount]: the
    condition holds exactly when it is positive, and each iteration
    increments [stepCount] once. *)
Fixpoint loop (remaining : nat) (a : Agent) (w : World G JsValue)
    (startTime : nat) (response : list (Part JsValue))
  : Agent * World G JsValue * Completion RunResult :=
  match remaining with
  | O => (a, w, Returned (failure a))
  | S remaining' =>
      match turn a w startTime response with
      | (a', w', Done c) => (a', w', c)
      | (a', w', Continue response') => loop remaining' a' w' startTime response'
      end
  end.

(** [typeof context === "object" ? JSON.stringify(context, null, 2) : context]
    inside the template literal. *)
Definition renderContext (c : JsValue) : string :=
  match c with
  | JsNull | JsArr _ | JsObj _ => stringify engine c
  | JsStr s => s
  | JsNum x => numberText engine x
  | JsBool b => if b then "true" else "false"
  | JsUndefined => "undefined"
  end.

(** The message sent first; [context] is [None] when the argument is
    omitted, and [undefined] stands for the default [null] as well. *)
Definition fullMessage (userMessage : string) (context : option JsValue) : string :=
  match context with
  | Some c =>
      if truthy c
      then userMessage +:+ nl +:+ nl +:+ "[Context]:" +:+ nl +:+ renderContext c
      else userMessage
  | None => userMessage
  end.

(** [async run(userMessage, context = null)] *)
Definition run (a : Agent) (w : World G JsValue) (userMessage : string)
    (context : option JsValue)
  : Agent * World G JsValue * Completion RunResult :=
  let startTime := now w in
  let a0 := set_stepCount 0 a in
  match sendMessage generateContent (chat a0) w
          (MsgText (fullMessage userMessage context)) with
  | (c1, w1, Fulfilled _ response) =>
      loop (Z.to_nat (maxSteps a0 - stepCount a0)) (set_chat c1 a0) w1 startTime response
  | (c1, w1, Rejected _ err) => (set_chat c1 a0, w1, Threw err)
  | (c1, w1, Pending) => (set_chat c1 a0, w1, Hangs)
  end.

End Run.

(** [reset()] *)
Definition reset (a : Agent) : Agent :=
  set_stepCount 0 (set_chat (startChat (geminiModel a)) a).

Record Stats : Type := { st_totalCalls : Z; st_lastSteps : Z }.

(** [getStats()] *)
Definition getStats (a : Agent) : Stats :=
  {| st_totalCalls := totalCalls a; st_lastSteps := stepCount a |}.

End BaseAgent.

(** ** [Orchestrator]: one coordinator, workers in parallel
    (07_orchestrator_pattern.js) *)

Module Orchestrator.

(** A worker of the table: a model call of its own, given the task
    text, resolving to the text of the answer. *)
Definition WorkerFn : Type := string -> Settle string.

Record Orchestrator : Type := { model : GenerativeModel }.

(** [{ name: "call_worker", response: { worker, <field>: v } }] *)
Definition respond (worker : JsValue) (field : string) (v : JsValue) : FunctionResponse :=
  {| fr_name := "call_worker"; fr_response := JsObj [("worker", worker); (field, v)] |}.

Section Run.
Context {G : Type}.
Variable generateContent : G -> Request JsValue -> G * Settle (list (Part JsValue)).
Variable engine : Engine.
(** The table [workers]. *)
Variable workers : list (string * WorkerFn).

(** The [async (p) => { ... }] run for one call: how the promise it
    returns settles.  The arguments are destructured; the log line
    prints [worker] and calls [task.substring]; then [workers[worker]]
    is looked up and what it finds is called with the task. *)
Definition dispatch (c : FunctionCall JsValue) : Settle FunctionResponse :=
  let args := fc_args c in
  match prop args "worker", prop args "task" with
  | Some worker, Some task =>
      match toStr engine worker with
      | None => Rejected 0 (JsError (typeErrorText engine (NotPrimitive worker)))
      | Some key =>
          match task with
          | JsStr t =>
              match member key workers with
              | Absent =>
                  Fulfilled 0 (respond worker "error" (JsStr ("Unknown worker: " +:+ key)))
              | Own workerFn =>
                  match workerFn t with
                  | Fulfilled ms result => Fulfilled ms (respond worker "result" (JsStr result))
                  | Rejected ms err => Rejected ms err
                  | Pending => Pending
                  end
              | Inherited =>
                  match callInherited engine key task with
                  | inl result => Fulfilled 0 (respond worker "result" result)
                  | inr message => Rejected 0 (JsError message)
                  end
              end
          | JsUndefined | JsNull =>
              Rejected 0 (JsError (typeErrorText engine (ReadOfNullish task "substring")))
          | _ => Rejected 0 (JsError (typeErrorText engine (NotAFunction task "substring")))
          end
      end
  | _, _ => Rejected 0 (JsError (typeErrorText engine (Destructuring args)))
  end.

(** [results.map((r) => ({ functionResponse: { name: r.name, response: r.response } }))] *)
Definition toToolResults (results : list FunctionResponse) : list (Part JsValue) :=
  map (fun r => responsePart (fr_name r) (fr_response r)) results.

Definition noteDispatches (calls : list (FunctionCall JsValue)) (w : World G JsValue)
  : World G JsValue :=
  {| now := now w; gw := gw w; sent := sent w;
     dispatched := dispatched w ++ map (fun c => (now w, c)) calls |}.

(** [Promise.all(calls.map(async (p) => { ... }))]: every call is
    started at once, then all are awaited together. *)
Definition dispatchAll (calls : list (FunctionCall JsValue)) (w : World G JsValue)
  : World G JsValue * Settle (list FunctionResponse) :=
  let workerPromises := map dispatch calls in
  let w1 := noteDispatches calls w in
  let all := promiseAll workerPromises in
  (tick (latency all) w1, all).

Inductive Next : Type :=
| Done (c : Completion string)
| Continue (response' : list (Part JsValue)).

(** The body of the [while] loop. *)
Definition turn (chat : ChatSession JsValue) (w : World G JsValue)
    (response : list (Part JsValue))
  : ChatSession JsValue * World G JsValue * Next :=
  match functionCalls response with
  | [] => (chat, w, Done (Returned (joinTexts response)))
  | calls =>
      match dispatchAll calls w with
      | (w1, Fulfilled _ results) =>
          match sendMessage generateContent chat w1 (MsgParts (toToolResults results)) with
          | (chat', w2, Fulfilled _ response') => (chat', w2, Continue response')
          | (chat', w2, Rejected _ err) => (chat', w2, Done (Threw err))
          | (chat', w2, Pending) => (chat', w2, Done Hangs)
          end
      | (w1, Rejected _ err) => (chat, w1, Done (Threw err))
      | (w1, Pending) => (chat, w1, Done Hangs)
      end
  end.

(** The [while (iteration++ < 5)] loop and the return that follows it;
    [remaining] is the number of iterations left. *)
Fixpoint loop (remaining : nat) (chat : ChatSession JsValue) (w : World G JsValue)
    (response : list (Part JsValue))
  : World G JsValue * Completion string :=
  match remaining with
  | O => (w, Returned "Orchestration complete")
  | S remaining' =>
      match turn chat w response with
      | (_, w', Done c) => (w', c)
      | (chat', w', Continue response') => loop remaining' chat' w' response'
      end
  end.

(** [async run(userRequest)] *)
Definition run (o : Orchestrator) (w : World G JsValue) (userRequest : string)
  : World G JsValue * Completion string :=
  match sendMessage generateContent (startChat (model o)) w (MsgText userRequest) with
  | (chat, w1, Fulfilled _ response) => loop 5 chat w1 response
  | (_, w1, Rejected _ err) => (w1, Threw err)
  | (_, w1, Pending) => (w1, Hangs)
  end.

End Run.

End Orchestrator.

(** ** Debate with a judge (17_debate_multi_agent.js) *)

Module Debate.

Definition proSystem : string :=
  "You are a skilled debater arguing STRONGLY IN FAVOR of the given topic." +:+ nl
  +:+ "     Be persuasive, use data/examples, max 200 words. Don't be wishy-washy.".

Definition conSystem : string :=
  "You are a skilled debater arguing STRONGLY AGAINST the given topic." +:+ nl
  +:+ "     Be persuasive, use data/examples, max 200 words. Don't be wishy-washy.".

Definition judgeSystem : string :=
  "You are an impartial judge evaluating a debate. Be objective and analytical." +:+ nl
  +:+ "     Score each side 1-10 on: Evidence, Logic, Persuasiveness." +:+ nl
  +:+ "     Give a final verdict with clear reasoning." +:+ nl
  +:+ "     Format:" +:+ nl
  +:+ "     ## Scores" +:+ nl
  +:+ "     ## Key Takeaways from Each Side  " +:+ nl
  +:+ "     ## Final Verdict" +:+ nl
  +:+ "     ## Recommendation".

(** The prompt of a later round, the same text for both sides. *)
Definition rebuttalPrompt (topic context opponentArg : string) : string :=
  "Topic: " +:+ dq +:+ topic +:+ dq +:+ nl +:+ "Context: " +:+ context +:+ nl +:+ nl
  +:+ "Your opponent said:" +:+ nl +:+ dq +:+ opponentArg +:+ dq +:+ nl +:+ nl
  +:+ "Counter their argument AND strengthen your position.".

(** The opening prompt; [side] is [FOR] or [AGAINST]. *)
Definition openingPrompt (side topic context : string) : string :=
  "Make the strongest possible case " +:+ side +:+ ": " +:+ dq +:+ topic +:+ dq +:+ nl
  +:+ "Context: " +:+ context.

(** [opponentArg ? rebuttal : opening]: [null] and the empty string
    are falsy. *)
Definition agentPrompt (side topic context : string) (opponentArg : option string) : string :=
  match opponentArg with
  | Some arg =>
      if String.eqb arg "" then openingPrompt side topic context
      else rebuttalPrompt topic context arg
  | None => openingPrompt side topic context
  end.

Record Round : Type := { pro : string; con : string }.

(** [`=== Round ${i + 1} ===\nFOR: ${r.pro}\n\nAGAINST: ${r.con}`] *)
Definition roundBlock (i : nat) (r : Round) : string :=
  "=== Round " +:+ pretty (i + 1)%nat +:+ " ===" +:+ nl
  +:+ "FOR: " +:+ pro r +:+ nl +:+ nl +:+ "AGAINST: " +:+ con r.

Definition transcript (rounds : list Round) : string :=
  String.concat (nl +:+ nl) (imap roundBlock rounds).

Definition judgePrompt (topic : string) (rounds : list Round) (context : string) : string :=
  "Topic: " +:+ dq +:+ topic +:+ dq +:+ nl +:+ "Context: " +:+ context +:+ nl +:+ nl
  +:+ "Debate Transcript:" +:+ nl +:+ transcript rounds.

(** [Promise.all([p, c])], destructured as [[pro, con]]. *)
Definition promiseAll2 {A : Type} (p c : Settle A) : Settle (A * A) :=
  match p, c with
  | Fulfilled m x, Fulfilled n y => Fulfilled (Nat.max m n) (x, y)
  | Fulfilled _ _, Rejected n e => Rejected n e
  | Fulfilled _ _, Pending => Pending
  | Rejected m e, Rejected n e' =>
      if (m <=? n)%nat then Rejected m e else Rejected n e'
  | Rejected m e, _ => Rejected m e
  | Pending, Rejected n e => Rejected n e
  | Pending, _ => Pending
  end.

(** One generation: the system instruction, the prompt, the reply. *)
Record Exchange : Type :=
  { ex_system : string; ex_prompt : string; ex_reply : Settle string }.

(** [{ topic, context, rounds = 2 }] *)
Record DebateConfig : Type :=
  { dc_topic : string; dc_context : string; dc_rounds : option Z }.

(** [{ topic, rounds: debateRounds, verdict }] *)
Record DebateResult : Type :=
  { topic : string; rounds : list Round; verdict : string }.

Section Llm.
Context {G : Type}.
(** The model service: the model, the prompt, the text of the answer. *)
Variable generateContent : G -> GenerativeModel -> string -> G * Settle string.

(** The state of the model service and the generations asked of it so
    far, in the order in which they were started. *)
Record World : Type := { gw : G; asked : list Exchange }.

(** [llm(system, prompt)], up to the promise it returns. *)
Definition llm (w : World) (system prompt : string) : World * Settle string :=
  let m := {| gm_model := "gemini-1.5-flash"; gm_systemInstruction := system;
              gm_tools := None |} in
  let '(g', reply) := generateContent (gw w) m prompt in
  ({| gw := g';
      asked := asked w ++ [{| ex_system := system; ex_prompt := prompt;
                              ex_reply := reply |}] |},
   reply).

Definition proAgent (w : World) (topic context : string) (opponentArg : option string)
  : World * Settle string :=
  llm w proSystem (agentPrompt "FOR" topic context opponentArg).

Definition conAgent (w : World) (topic context : string) (opponentArg : option string)
  : World * Settle string :=
  llm w conSystem (agentPrompt "AGAINST" topic context opponentArg).

Definition judgeAgent (w : World) (topic : string) (rounds : list Round) (context : string)
  : World * Settle string :=
  llm w judgeSystem (judgePrompt topic rounds context).

(** The [for (let i = 1; i <= rounds; i++)] loop; [remaining] is
    [rounds - i + 1], the number of rounds left.  Both sides are
    started, the pro side first, before either is awaited. *)
Fixpoint debateLoop (remaining : nat) (i : Z) (w : World) (topic context : string)
    (lastPro lastCon : option string) (debateRounds : list Round)
  : World * Completion (list Round) :=
  match remaining with
  | O => (w, Returned debateRounds)
  | S remaining' =>
      let '(w1, p) := proAgent w topic context (if 1 <? i then lastCon else None) in
      let '(w2, c) := conAgent w1 topic context (if 1 <? i then lastPro else None) in
      match promiseAll2 p c with
      | Fulfilled _ (pro, con) =>
          debateLoop remaining' (i + 1) w2 topic context (Some pro) (Some con)
            (debateRounds ++ [{| pro := pro; con := con |}])
      | Rejected _ err => (w2, Threw err)
      | Pending => (w2, Hangs)
      end
  end.

(** [async function runDebate({ topic, context, rounds = 2 })] *)
Definition runDebate (w : World) (cfg : DebateConfig) : World * Completion DebateResult :=
  let rounds := default 2 (dc_rounds cfg) in
  match debateLoop (Z.to_nat (rounds - 1 + 1)) 1 w (dc_topic cfg) (dc_context cfg)
          None None [] with
  | (w1, Returned debateRounds) =>
      match judgeAgent w1 (dc_topic cfg) debateRounds (dc_context cfg) with
      | (w2, Fulfilled _ verdict) =>
          (w2, Returned {| topic := dc_topic cfg; rounds := debateRounds;
                           verdict := verdict |})
      | (w2, Rejected _ err) => (w2, Threw err)
      | (w2, Pending) => (w2, Hangs)
      end
  | (w1, Threw err) => (w1, Threw err)
  | (w1, Hangs) => (w1, Hangs)
  end.

End Llm.
Arguments World : clear implicits.

End Debate.

(** ** Vocabulary of the statements *)

Module Terms.
Import BaseAgent.

(** The agent fields that neither [run] nor [reset] assigns. *)
Definition sameSetup (a a' : Agent) : Prop :=
  name a' = name a /\ toolFns a' = toolFns a /\ maxSteps a' = maxSteps a
  /\ verbose a' = verbose a /\ geminiModel a' = geminiModel a.

(** A failure that the [catch] block can report: its [message] can be
    read and printed.  This holds of every [Error] and of every thrown
    value other than [null] and [undefined] whose [message] is not an
    object with a [toString] of its own. *)
Definition catchable (engine : Engine) (err : Thrown) : Prop :=
  exists message text, messageOf err = Some message /\ toStr engine message = Some text.

(** The part that a call contributes to [toolResults] once its tool
    has settled, however long that took; [None] when the tool never
    settles or its failure cannot be reported. *)
Definition expectedResult (engine : Engine) (fns : list (string * ToolFn))
    (c : FunctionCall JsValue) : option (Part JsValue) :=
  match invoke engine fns c with
  | Fulfilled _ result => Some (responsePart (fc_name c) result)
  | Rejected _ err =>
      match caught engine err (fc_name c) with
      | inl payload => Some (responsePart (fc_name c) payload)
      | inr _ => None
      end
  | Pending => None
  end.

(** The time the tool of a call takes. *)
Definition callTime (engine : Engine) (fns : list (string * ToolFn))
    (c : FunctionCall JsValue) : nat :=
  latency (invoke engine fns c).

(** Calls run one after the other from time [t]: each with the time at
    which it starts. *)
Fixpoint schedule (engine : Engine) (fns : list (string * ToolFn)) (t : nat)
    (calls : list (FunctionCall JsValue)) : list (nat * FunctionCall JsValue) :=
  match calls with
  | [] => []
  | c :: rest => (t, c) :: schedule engine fns (t + callTime engine fns c)%nat rest
  end.

Definition mkWorld {G Args : Type} (t : nat) (g : G) (s : list (Request Args))
    (d : list (nat * FunctionCall Args)) : World G Args :=
  {| now := t; gw := g; sent := s; dispatched := d |}.

(** The responses of the model in a stretch of history, in order. *)
Definition modelTurns (h : list (Content JsValue)) : list (list (Part JsValue)) :=
  omap (fun c => match role c with Model => Some (parts c) | _ => None end) h.

Definition hasCalls (response : list (Part JsValue)) : Prop :=
  functionCalls response <> [].

(** The number of tool calls that a list of responses asks for. *)
Definition callsRequested (rs : list (list (Part JsValue))) : nat :=
  sum_list_with (fun r => length (functionCalls r)) rs.

(** The names under which the parts of a function content answer. *)
Definition responseNames {Args : Type} (ps : list (Part Args)) : list string :=
  omap (fun p => fr_name <$> functionResponse p) ps.

(** The names of the function calls of a response. *)
Definition callNames {Args : Type} (ps : list (Part Args)) : list string :=
  map fc_name (functionCalls ps).

(** A stretch of conversation that starts with a response of the
    model: every response but the last has function calls and is
    followed by one function content that answers them, call by call
    and name by name, and then by the next response. *)
Fixpoint answered (h : list (Content JsValue)) : Prop :=
  match h with
  | [] => True
  | m :: rest =>
      role m = Model
      /\ match rest with
         | [] => True
         | f :: rest' =>
             role f = Function
             /\ functionCalls (parts m) <> []
             /\ responseNames (parts f) = callNames (parts m)
             /\ length (parts f) = length (functionCalls (parts m))
             /\ answered rest'
         end
  end.

(** The request of the first round-trip of [run]. *)
Definition firstRequest (engine : Engine) (a : Agent) (userMessage : string)
    (context : option JsValue) : Request JsValue :=
  {| rq_model := cs_model (chat a);
     contents := history (chat a)
                   ++ [{| role := User;
                          parts := [textPart (fullMessage engine userMessage context)] |}] |}.

(** What a caller does with an agent over its lifetime. *)
Inductive Op : Type :=
| OpRun (userMessage : string) (context : option JsValue)
| OpReset.

Section Service.
Context {G : Type}.
Variable generateContent : G -> Request JsValue -> G * Settle (list (Part JsValue)).
Variable engine : Engine.

(** A caller that performs [ops] one after the other, awaiting each
    [run]; a [run] that throws leaves the agent usable, one that hangs
    ends the session. *)
Fixpoint session (ops : list Op) (a : Agent) (w : World G JsValue)
  : Agent * World G JsValue :=
  match ops with
  | [] => (a, w)
  | OpReset :: rest => session rest (reset a) w
  | OpRun userMessage context :: rest =>
      match run generateContent engine a w userMessage context with
      | (a', w', Hangs) => (a', w')
      | (a', w', _) => session rest a' w'
      end
  end.

(** From the state [g] on, the model service answers the next requests,
    whatever they hold, with the responses [rs], one after the other. *)
Fixpoint replies (g : G) (rs : list (list (Part JsValue))) : Prop :=
  match rs with
  | [] => True
  | r :: rest =>
      forall rq, exists g' ms, generateContent g rq = (g', Fulfilled ms r) /\ replies g' rest
  end.

(** Every response of the model service is one the SDK holds valid. *)
Definition validResponses : Prop :=
  forall g rq g' ms ps,
    generateContent g rq = (g', Fulfilled ms ps) -> isValidResponse ps = true.
End Service.

(** The call hands [call_worker] the worker name [nm] and the task
    text [task]. *)
Definition asksWorker (c : FunctionCall JsValue) (nm task : string) : Prop :=
  prop (fc_args c) "worker" = Some (JsStr nm) /\ prop (fc_args c) "task" = Some (JsStr task).


(** What a well-formed call leads to after [ms] milliseconds when
    nothing fails: the text its worker of the table is fulfilled with,
    or at once the error for a name that the table neither has nor
    inherits. *)
Definition workerResult (workers : list (string * Orchestrator.WorkerFn))
    (c : FunctionCall JsValue) (ms : nat) (r : FunctionResponse) : Prop :=
  exists nm task,
    asksWorker c nm task
    /\ ((exists fn result,
            getOwn nm workers = Some fn /\ fn task = Fulfilled ms result
            /\ r = Orchestrator.respond (JsStr nm) "result" (JsStr result))
        \/ (getOwn nm workers = None /\ inherited nm = false /\ ms = 0%nat
            /\ r = Orchestrator.respond (JsStr nm) "error"
                     (JsStr ("Unknown worker: " +:+ nm)))).

(** The generations of the rounds [rs] of a debate, two per round,
    the pro side first: each side is asked under its own system
    instruction, is answered with its text of that round, and is
    prompted with the other side's text of the round before
    ([lastCon], [lastPro]) when [rebut] is set, with no opponent
    argument otherwise. *)
Fixpoint wired (topic context : string) (rebut : bool) (lastPro lastCon : option string)
    (rs : list Debate.Round) (exs : list Debate.Exchange) : Prop :=
  match rs, exs with
  | [], [] => True
  | r :: rs', pe :: ce :: exs' =>
      Debate.ex_system pe = Debate.proSystem
      /\ Debate.ex_prompt pe
         = Debate.agentPrompt "FOR" topic context (if rebut then lastCon else None)
      /\ outcome (Debate.ex_reply pe) = Some (inl (Debate.pro r))
      /\ Debate.ex_system ce = Debate.conSystem
      /\ Debate.ex_prompt ce
         = Debate.agentPrompt "AGAINST" topic context (if rebut then lastPro else None)
      /\ outcome (Debate.ex_reply ce) = Some (inl (Debate.con r))
      /\ wired topic context true (Some (Debate.pro r)) (Some (Debate.con r)) rs' exs'
  | _, _ => False
  end.

End Terms.

(** ** Test doubles

    A stub engine, a stub tool table, stub model services and stub
    workers, on which the statements below are evaluated. *)

Module Stub.
Import BaseAgent.

(** An engine that words its errors like V8, knows one number, and on
    which of the inherited members only [toString] and [constructor]
    return when called as plain functions. *)
Definition engine : Engine :=
  {| stringify := fun _ => "{}";
     numberText := fun x => if PrimFloat.eqb x 42%float then "42" else "NaN";
     integerText := fun _ => "1e+21";
     typeErrorText := fun fault =>
       match fault with
       | ReadOfNullish v key =>
           "Cannot read properties of "
           +:+ (match v with JsNull => "null" | _ => "undefined" end)
           +:+ " (reading '" +:+ key +:+ "')"
       | Destructuring _ => "Cannot destructure property 'worker'"
       | NotAFunction _ key => key +:+ " is not a function"
       | NotPrimitive _ => "Cannot convert object to primitive value"
       end;
     callInherited := fun key arg =>
       if String.eqb key "toString" then inl (JsStr "[object Undefined]")
       else if String.eqb key "constructor" then inl arg
       else if String.eqb key "__proto__" then inr "fn is not a function"
       else inr "Cannot convert undefined or null to object" |}.

Definition toolA : ToolFn := fun _ => Fulfilled 100 (JsStr "resultA").
Definition toolB : ToolFn := fun _ => Fulfilled 200 (JsStr "resultB").
Definition toolC : ToolFn := fun _ => Fulfilled 50 (JsStr "resultC").
Definition toolBoom : ToolFn := fun _ => Rejected 20 (JsError "kaput").

Definition tools : list (string * ToolFn) :=
  [("A", toolA); ("B", toolB); ("C", toolC); ("boom", toolBoom)].

Definition agent (budget : Z) : Agent :=
  constructor
    {| cfg_name := "stub"; cfg_systemPrompt := "You are a stub.";
       cfg_tools := None; cfg_toolFns := Some tools; cfg_model := None;
       cfg_maxSteps := Some budget; cfg_verbose := Some false |}.

Definition call (nm : string) : FunctionCall JsValue :=
  {| fc_name := nm; fc_args := JsObj [] |}.

Definition world {G Args : Type} (g : G) : World G Args :=
  {| now := 1000; gw := g; sent := []; dispatched := [] |}.

(** A model that asks for tool [A] on every round-trip. *)
Definition alwaysCalls : unit -> Request JsValue -> unit * Settle (list (Part JsValue)) :=
  fun _ _ => (tt, Fulfilled 10 [callPart "A" (JsObj [])]).

(** A model that plays back a script of responses and then answers
    with the text [done]. *)
Definition scripted {Args : Type}
  : list (list (Part Args)) -> Request Args
    -> list (list (Part Args)) * Settle (list (Part Args)) :=
  fun script _ =>
    match script with
    | [] => ([], Fulfilled 5 [textPart "done"])
    | response :: rest => (rest, Fulfilled 5 response)
    end.

Definition workers : list (string * Orchestrator.WorkerFn) :=
  [("code_agent", fun task => Fulfilled 100 ("code for " +:+ task));
   ("math_agent", fun _ => Fulfilled 200 "4");
   ("writing_agent", fun _ => Rejected 30 (JsError "quota exceeded"))].

Definition workerArgs (w task : string) : JsValue :=
  JsObj [("worker", JsStr w); ("task", JsStr task)].

Definition workerCall (w task : string) : Part JsValue :=
  callPart "call_worker" (workerArgs w task).

Definition orchestrator : Orchestrator.Orchestrator :=
  {| Orchestrator.model :=
       {| gm_model := "gemini-1.5-flash"; gm_systemInstruction := "You delegate.";
          gm_tools := Some [{| td_name := "call_worker"; td_description := "Delegate";
                               td_parameters := JsObj [] |}] |} |}.

(** A model that answers the [n]-th generation with [reply n]. *)
Definition counting : nat -> GenerativeModel -> string -> nat * Settle string :=
  fun n _ _ => (S n, Fulfilled 10 ("reply " +:+ pretty n)).

End Stub.

(** ** Further test doubles *)

Module Probe.

(** A tool that rejects with [null], and the stub table with it. *)
Definition toolNull : BaseAgent.ToolFn := fun _ => Rejected 5 (JsThrown JsNull).

Definition tools : list (string * BaseAgent.ToolFn) :=
  Stub.tools ++ [("nil", toolNull)].

Definition agent (budget : Z) : BaseAgent.Agent :=
  BaseAgent.constructor
    {| BaseAgent.cfg_name := "probe"; BaseAgent.cfg_systemPrompt := "You are a stub.";
       BaseAgent.cfg_tools := None; BaseAgent.cfg_toolFns := Some tools;
       BaseAgent.cfg_model := None; BaseAgent.cfg_maxSteps := Some budget;
       BaseAgent.cfg_verbose := Some false |}.


(** A model that asks for tool [A] once and then answers with the
    text [done]; every response of it is valid. *)
Definition askOnce : bool -> Request JsValue -> bool * Settle (list (Part JsValue)) :=
  fun asked _ =>
    (true, Fulfilled 5 (if asked then [textPart "done"] else [callPart "A" (JsObj [])])).

(** A model that asks for the worker [math_agent] on every
    round-trip. *)
Definition delegates : unit -> Request JsValue -> unit * Settle (list (Part JsValue)) :=
  fun _ _ => (tt, Fulfilled 10 [Stub.workerCall "math_agent" "2+2"]).

(** Workers that are always fulfilled. *)
Definition steady : list (string * Orchestrator.WorkerFn) :=
  [("code_agent", fun task => Fulfilled 100 ("code for " +:+ task));
   ("math_agent", fun _ => Fulfilled 200 "4")].

(** A text model whose third generation is rejected. *)
Definition faltering : nat -> GenerativeModel -> string -> nat * Settle string :=
  fun n _ _ =>
    (S n, if (n =? 2)%nat then Rejected 7 (JsError "overloaded")
          else Fulfilled 10 ("reply " +:+ pretty n)).

(** A text model that fails the judge: the generation under the system
    instruction of the judge is rejected. *)
Definition unjudged : nat -> GenerativeModel -> string -> nat * Settle string :=
  fun n m _ =>
    (S n, if String.eqb (gm_systemInstruction m) Debate.judgeSystem
          then Rejected 7 (JsError "overloaded")
          else Fulfilled 10 ("reply " +:+ pretty n)).

(** A text model that has nothing to say against anything: under the
    system instruction of the con side it answers with the empty
    text. *)
Definition mute : nat -> GenerativeModel -> string -> nat * Settle string :=
  fun n m _ =>
    (S n, Fulfilled 10 (if String.eqb (gm_systemInstruction m) Debate.conSystem
                        then "" else "reply " +:+ pretty n)).

End Probe.

(** * Properties of [BaseAgent] *)

Section BaseAgentProperties.
Import BaseAgent Terms.
Context {G : Type}.
Variable generateContent : G -> Request JsValue -> G * Settle (list (Part JsValue)).
Variable engine : Engine.

Lemma sendMessage_sent (c : ChatSession JsValue) (w : World G JsValue) (m : Message JsValue) :
  sent (sendMessage generateContent c w m).1.2
  = sent w ++ [{| rq_model := cs_model c; contents := history c ++ [formatNewContent m] |}].
Proof.
  unfold sendMessage.
  destruct (generateContent _ _) as [g' [ms ps|ms e|]]; reflexivity.
Qed.

Lemma sendMessage_dispatched (c : ChatSession JsValue) (w : World G JsValue) (m : Message JsValue) :
  dispatched (sendMessage generateContent c w m).1.2 = dispatched w.
Proof.
  unfold sendMessage.
  destruct (generateContent _ _) as [g' [ms ps|ms e|]]; reflexivity.
Qed.

Lemma sendMessage_model (c : ChatSession JsValue) (w : World G JsValue) (m : Message JsValue) :
  cs_model (sendMessage generateContent c w m).1.1 = cs_model c.
Proof.
  unfold sendMessage.
  destruct (generateContent _ _) as [g' [ms ps|ms e|]]; reflexivity.
Qed.

(** What [sendMessage] does to the session: it records the exchange
    when the model answers with a valid response, and nothing
    otherwise. *)
Lemma sendMessage_history (c : ChatSession JsValue) (w : World G JsValue) (m : Message JsValue) :
  let s := sendMessage generateContent c w m in
  match s.2 with
  | Fulfilled _ ps =>
      s.1.1 = {| cs_model := cs_model c;
                 history := if isValidResponse ps
                            then history c ++ [formatNewContent m; {| role := Model; parts := ps |}]
                            else history c |}
  | _ => s.1.1 = c
  end.
Proof.
  unfold sendMessage.
  destruct (generateContent _ _) as [g' [ms ps|ms e|]]; reflexivity.
Qed.

Lemma set_totalCalls_id (a : Agent) : set_totalCalls (totalCalls a) a = a.
Proof. destruct a; reflexivity. Qed.

Lemma world_eta (w : World G JsValue) :
  mkWorld (now w) (gw w) (sent w) (dispatched w) = w.
Proof. destruct w; reflexivity. Qed.

(** The [catch] block reports every failure whose message can be read
    and printed. *)
Lemma caught_catchable (err : Thrown) (nm : string) :
  catchable engine err ->
  exists message, messageOf err = Some message
                  /\ caught engine err nm = inl (errorPayload message nm).
Proof.
  intros (message & text & Hm & Ht). exists message. split; [exact Hm|].
  unfold caught. rewrite Hm, Ht. reflexivity.
Qed.


(** An [Error] is always reported. *)
Lemma catchable_error (message : string) : catchable engine (JsError message).
Proof. exists (JsStr message), message. split; reflexivity. Qed.

(** A batch all of whose calls settle and can be reported runs to its
    end: the calls are taken in order, each starting when the one
    before has settled. *)
Lemma executeCalls_settled (calls : list (FunctionCall JsValue)) :
  forall (a : Agent) (w : World G JsValue) (acc rs : list (Part JsValue)),
    Forall2 (fun c r => expectedResult engine (toolFns a) c = Some r) calls rs ->
    executeCalls engine a w calls acc
    = (set_totalCalls (totalCalls a + Z.of_nat (length calls)) a,
       mkWorld (now w + sum_list_with (callTime engine (toolFns a)) calls)%nat (gw w) (sent w)
               (dispatched w ++ schedule engine (toolFns a) (now w) calls),
       Returned (acc ++ rs)).
Proof.
  induction calls as [|c rest IH]; intros a w acc rs Hrs.
  - inversion Hrs; subst. cbn.
    rewrite Z.add_0_r, set_totalCalls_id, Nat.add_0_r, !app_nil_r, world_eta.
    reflexivity.
  - inversion Hrs as [|c' r rest' rs' Hc Hrest]; subst.
    unfold expectedResult in Hc.
    cbn [executeCalls schedule sum_list_with length].
    replace (totalCalls a + Z.of_nat (S (length rest)))
      with (totalCalls a + 1 + Z.of_nat (length rest)) by lia.
    rewrite Nat.add_assoc. unfold callTime at 1 3.
    change (toolFns (set_totalCalls (totalCalls a + 1) a)) with (toolFns a).
    destruct (invoke engine (toolFns a) c) as [ms v|ms e|]; [| |discriminate].
    + injection Hc as <-.
      rewrite (IH _ _ _ rs') by exact Hrest. cbn.
      rewrite <- !app_assoc. reflexivity.
    + destruct (caught engine e (fc_name c)) as [payload|te]; [|discriminate].
      injection Hc as <-.
      rewrite (IH _ _ _ rs') by exact Hrest. cbn.
      rewrite <- !app_assoc. reflexivity.
Qed.

(** Conversely, a batch that ran to its end had all its calls settle
    and reported. *)
Lemma executeCalls_Returned (calls : list (FunctionCall JsValue)) :
  forall (a a' : Agent) (w w' : World G JsValue) (acc rs' : list (Part JsValue)),
    executeCalls engine a w calls acc = (a', w', Returned rs') ->
    exists rs,
      Forall2 (fun c r => expectedResult engine (toolFns a) c = Some r) calls rs
      /\ rs' = acc ++ rs.
Proof.
  induction calls as [|c rest IH]; intros a a' w w' acc rs' Hx.
  - cbn in Hx. injection Hx as <- <- <-. exists []. rewrite app_nil_r. split; constructor.
  - cbn [executeCalls] in Hx.
    change (toolFns (set_totalCalls (totalCalls a + 1) a)) with (toolFns a) in Hx.
    destruct (invoke engine (toolFns a) c) as [ms v|ms e|] eqn:Hc; [| |discriminate].
    + apply IH in Hx as (rs & Hrs & ->). cbn in Hrs.
      eexists (_ :: rs). split; [constructor; [|exact Hrs]|].
      * unfold expectedResult. rewrite Hc. reflexivity.
      * rewrite <- app_assoc. reflexivity.
    + destruct (caught engine e (fc_name c)) as [payload|te] eqn:Hcaught; [|discriminate].
      apply IH in Hx as (rs & Hrs & ->). cbn in Hrs.
      eexists (_ :: rs). split; [constructor; [|exact Hrs]|].
      * unfold expectedResult. rewrite Hc, Hcaught. reflexivity.
      * rewrite <- app_assoc. reflexivity.
Qed.

(** However the batch ends, [totalCalls] grows by the number of calls
    dispatched, and nothing else of the agent changes. *)
Lemma executeCalls_totalCalls (calls : list (FunctionCall JsValue)) :
  forall (a : Agent) (w : World G JsValue) (acc : list (Part JsValue)),
    exists k : nat,
      (executeCalls engine a w calls acc).1.1 = set_totalCalls (totalCalls a + Z.of_nat k) a
      /\ length (dispatched (executeCalls engine a w calls acc).1.2)
         = (length (dispatched w) + k)%nat
      /\ sent (executeCalls engine a w calls acc).1.2 = sent w
      /\ gw (executeCalls engine a w calls acc).1.2 = gw w.
Proof.
  induction calls as [|c rest IH]; intros a w acc; cbn [executeCalls].
  - exists 0%nat. cbn. rewrite Z.add_0_r, set_totalCalls_id. auto with lia.
  - change (toolFns (set_totalCalls (totalCalls a + 1) a)) with (toolFns a).
    assert (Hstep : forall ms part,
               exists k : nat,
                 (executeCalls engine (set_totalCalls (totalCalls a + 1) a)
                    (tick ms (noteDispatch c w)) rest (acc ++ [part])).1.1
                 = set_totalCalls (totalCalls a + Z.of_nat k) a
                 /\ length (dispatched
                              (executeCalls engine (set_totalCalls (totalCalls a + 1) a)
                                 (tick ms (noteDispatch c w)) rest (acc ++ [part])).1.2)
                    = (length (dispatched w) + k)%nat
                 /\ sent (executeCalls engine (set_totalCalls (totalCalls a + 1) a)
                            (tick ms (noteDispatch c w)) rest (acc ++ [part])).1.2 = sent w
                 /\ gw (executeCalls engine (set_totalCalls (totalCalls a + 1) a)
                          (tick ms (noteDispatch c w)) rest (acc ++ [part])).1.2 = gw w).
    { intros ms part.
      destruct (IH (set_totalCalls (totalCalls a + 1) a) (tick ms (noteDispatch c w))
                   (acc ++ [part])) as (k & Ha & Hd & Hs & Hg).
      exists (S k). rewrite Ha, Hd, Hs, Hg. cbn. rewrite length_app. cbn.
      repeat split; try lia.
      unfold set_totalCalls; cbn. f_equal. lia. }
    destruct (invoke engine (toolFns a) c) as [ms v|ms e|].
    + apply Hstep.
    + destruct (caught engine e (fc_name c)) as [payload|te]; [apply Hstep|].
      exists 1%nat. cbn. rewrite length_app. cbn. auto.
    + exists 1%nat. cbn. rewrite length_app. cbn. auto.
Qed.

(** A tool table none of whose tools hangs or fails in a way that
    cannot be reported: every call settles and is reported; a name
    that is missing by the throw that follows the look-up, a name that
    is inherited by what the inherited member does. *)
Lemma invoke_settles (fns : list (string * ToolFn)) :
  (forall nm fn args, getOwn nm fns = Some fn -> fn args <> Pending) ->
  (forall nm fn args ms err,
      getOwn nm fns = Some fn -> fn args = Rejected ms err -> catchable engine err) ->
  forall calls : list (FunctionCall JsValue),
    exists rs, Forall2 (fun c r => expectedResult engine fns c = Some r) calls rs.
Proof.
  intros Hfns Hcatch calls. induction calls as [|c rest [rs IH]].
  - exists []. constructor.
  - assert (Hc : exists r, expectedResult engine fns c = Some r).
    { unfold expectedResult, invoke, member.
      destruct (getOwn (fc_name c) fns) as [fn|] eqn:Hl.
      - specialize (Hfns _ _ (fc_args c) Hl).
        destruct (fn (fc_args c)) as [ms v|ms e|] eqn:Hfn; [eauto| |congruence].
        destruct (caught_catchable e (fc_name c) (Hcatch _ _ _ _ _ Hl Hfn))
          as (message & _ & ->). eauto.
      - destruct (inherited (fc_name c)).
        + destruct (callInherited engine (fc_name c) (fc_args c)) as [v|message]; [eauto|].
          destruct (caught_catchable (JsError message) (fc_name c) (catchable_error message))
            as (m & _ & ->). eauto.
        + destruct (caught_catchable (JsError (unknownToolMessage fns (fc_name c)))
                      (fc_name c) (catchable_error _)) as (m & _ & ->). eauto. }
    destruct Hc as [r Hc]. exists (r :: rs). constructor; assumption.
Qed.

(** A response without function calls ends the loop at once. *)
Lemma turn_final (a : Agent) (w : World G JsValue) (t : nat) (response : list (Part JsValue)) :
  functionCalls response = [] ->
  turn generateContent engine a w t response
  = (set_stepCount (stepCount a + 1) a, w,
     Done (Returned (Success (joinTexts response) (stepCount a + 1) (now w - t)))).
Proof. intros H. unfold turn. rewrite H. reflexivity. Qed.

(** A response with function calls that all settle and are reported:
    the batch is run, its results are sent, and the loop goes on if
    the model answers. *)
Lemma turn_calls (a : Agent) (w : World G JsValue) (t : nat)
    (response rs : list (Part JsValue)) :
  functionCalls response <> [] ->
  Forall2 (fun c r => expectedResult engine (toolFns a) c = Some r)
          (functionCalls response) rs ->
  let a2 := set_totalCalls (totalCalls a + Z.of_nat (length (functionCalls response)))
              (set_stepCount (stepCount a + 1) a) in
  let w2 := mkWorld (now w + sum_list_with (callTime engine (toolFns a))
                                (functionCalls response))%nat
              (gw w) (sent w)
              (dispatched w ++ schedule engine (toolFns a) (now w) (functionCalls response)) in
  let s := sendMessage generateContent (chat a) w2 (MsgParts rs) in
  turn generateContent engine a w t response
  = (set_chat s.1.1 a2, s.1.2,
     match s.2 with
     | Fulfilled _ response' => Continue response'
     | Rejected _ err => Done (Threw err)
     | Pending => Done Hangs
     end).
Proof.
  intros Hne Hrs. cbn zeta. unfold turn.
  destruct (functionCalls response) as [|c cs] eqn:Hcalls; [congruence|].
  rewrite (executeCalls_settled (c :: cs) _ w [] rs) by exact Hrs.
  cbn [app].
  change (toolFns (set_stepCount (stepCount a + 1) a)) with (toolFns a).
  change (totalCalls (set_stepCount (stepCount a + 1) a)) with (totalCalls a).
  change (chat (set_totalCalls ?n (set_stepCount ?m a))) with (chat a).
  destruct (sendMessage generateContent (chat a) _ (MsgParts rs))
    as [[c3 w3] [ms r'|ms e|]]; reflexivity.
Qed.

(** With a model that asks for a tool on every round-trip, the loop
    uses up what remains of the budget and reports failure. *)
Lemma loop_exhausts (n : nat) :
  (forall g rq, exists g' ms ps,
      generateContent g rq = (g', Fulfilled ms ps) /\ functionCalls ps <> []) ->
  forall (a : Agent) (w : World G JsValue) (t : nat) (response : list (Part JsValue)),
    (forall nm fn args, getOwn nm (toolFns a) = Some fn -> fn args <> Pending) ->
    (forall nm fn args ms err,
        getOwn nm (toolFns a) = Some fn -> fn args = Rejected ms err -> catchable engine err) ->
    functionCalls response <> [] ->
    stepCount a + Z.of_nat n = maxSteps a ->
    exists a' w',
      loop generateContent engine n a w t response
      = (a', w', Returned (Failure (maxStepsMessage engine (maxSteps a)) (maxSteps a)))
      /\ stepCount a' = maxSteps a
      /\ length (sent w') = (length (sent w) + n)%nat.
Proof.
  intros Hgw. induction n as [|n IH]; intros a w t response Hfns Hcatch Hne Hn.
  - exists a, w. cbn. unfold failure. rewrite Z.add_0_r in Hn. rewrite Hn. auto with lia.
  - destruct (invoke_settles _ Hfns Hcatch (functionCalls response)) as [rs Hrs].
    cbn [loop]. rewrite (turn_calls a w t response rs Hne Hrs). cbn zeta.
    set (w2 := mkWorld _ _ _ _).
    set (a2 := set_totalCalls _ _).
    pose proof (sendMessage_sent (chat a) w2 (MsgParts rs)) as Hsent.
    unfold sendMessage in *.
    destruct (Hgw (gw w2) {| rq_model := cs_model (chat a);
                             contents := history (chat a) ++ [formatNewContent (MsgParts rs)] |})
      as (g' & ms & ps & Hg & Hps).
    rewrite Hg in *. cbn [fst snd] in *.
    match goal with
    | |- context [loop _ _ n ?a1 ?w1 t ps] =>
        destruct (IH a1 w1 t ps) as (a' & w' & Hloop & Hsteps & Hlen);
          [exact Hfns | exact Hcatch | exact Hps | cbn; lia | ]
    end.
    exists a', w'. rewrite Hloop. cbn in *.
    repeat split; try assumption.
    rewrite Hlen, length_app. cbn. lia.
Qed.

(** Under a model that never stops asking for tools, and with tools
    that settle, a failing one in a way the [catch] block can report,
    [run] uses up its budget and returns the failure result. *)
Lemma run_exhausts (a : Agent) (w : World G JsValue) (userMessage : string)
    (context : option JsValue) :
  0 <= maxSteps a ->
  (forall g rq, exists g' ms ps,
      generateContent g rq = (g', Fulfilled ms ps) /\ functionCalls ps <> []) ->
  (forall nm fn args, getOwn nm (toolFns a) = Some fn -> fn args <> Pending) ->
  (forall nm fn args ms err,
      getOwn nm (toolFns a) = Some fn -> fn args = Rejected ms err -> catchable engine err) ->
  exists a' w' r,
    run generateContent engine a w userMessage context = (a', w', Returned r)
    /\ success r = false
    /\ steps r = maxSteps a
    /\ r = Failure (maxStepsMessage engine (maxSteps a)) (maxSteps a)
    /\ st_lastSteps (getStats a') = maxSteps a.
Proof.
  intros Hmax Hgw Hfns Hcatch. unfold run. unfold sendMessage.
  destruct (Hgw (gw w) {| rq_model := cs_model (chat (set_stepCount 0 a));
                          contents := history (chat (set_stepCount 0 a))
                            ++ [formatNewContent (MsgText (fullMessage engine userMessage context))] |})
    as (g' & ms & ps & Hg & Hps).
  rewrite Hg.
  match goal with
  | |- context [loop _ _ ?n ?a1 ?w1 (now w) ps] =>
      destruct (loop_exhausts n Hgw a1 w1 (now w) ps)
        as (a' & w' & Hloop & Hsteps & _);
        [exact Hfns | exact Hcatch | exact Hps | cbn; lia | ]
  end.
  exists a', w', (Failure (maxStepsMessage engine (maxSteps a)) (maxSteps a)).
  rewrite Hloop. cbn in *. auto.
Qed.

(** Under the same conditions [run] makes [maxSteps + 1] requests to
    the model: the first one, and one at the end of each iteration. *)
Lemma run_round_trips (a : Agent) (w : World G JsValue) (userMessage : string)
    (context : option JsValue) :
  0 <= maxSteps a ->
  (forall g rq, exists g' ms ps,
      generateContent g rq = (g', Fulfilled ms ps) /\ functionCalls ps <> []) ->
  (forall nm fn args, getOwn nm (toolFns a) = Some fn -> fn args <> Pending) ->
  (forall nm fn args ms err,
      getOwn nm (toolFns a) = Some fn -> fn args = Rejected ms err -> catchable engine err) ->
  length (sent (run generateContent engine a w userMessage context).1.2)
  = (length (sent w) + 1 + Z.to_nat (maxSteps a))%nat.
Proof.
  intros Hmax Hgw Hfns Hcatch. unfold run. unfold sendMessage.
  destruct (Hgw (gw w) {| rq_model := cs_model (chat (set_stepCount 0 a));
                          contents := history (chat (set_stepCount 0 a))
                            ++ [formatNewContent (MsgText (fullMessage engine userMessage context))] |})
    as (g' & ms & ps & Hg & Hps).
  rewrite Hg.
  match goal with
  | |- context [loop _ _ ?n ?a1 ?w1 (now w) ps] =>
      destruct (loop_exhausts n Hgw a1 w1 (now w) ps)
        as (a' & w' & Hloop & _ & Hlen);
        [exact Hfns | exact Hcatch | exact Hps | cbn; lia | ]
  end.
  rewrite Hloop. cbn [fst snd]. rewrite Hlen. cbn. rewrite length_app. cbn. lia.
Qed.

(** The encoding of the [while] condition: [remaining] is positive
    exactly when [stepCount < maxSteps], and a pass through the body
    takes one off it. *)
Lemma while_guard (a : Agent) :
  (0 < Z.to_nat (maxSteps a - stepCount a))%nat <-> stepCount a < maxSteps a.
Proof. lia. Qed.

Lemma turn_budget (a : Agent) (w : World G JsValue) (t : nat) (response : list (Part JsValue)) :
  stepCount (turn generateContent engine a w t response).1.1 = stepCount a + 1
  /\ maxSteps (turn generateContent engine a w t response).1.1 = maxSteps a.
Proof.
  unfold turn.
  destruct (functionCalls response) as [|c cs]; [split; reflexivity|].
  destruct (executeCalls_totalCalls (c :: cs) (set_stepCount (stepCount a + 1) a) w [])
    as (k & Ha & _).
  destruct (executeCalls _ _ w (c :: cs) []) as [[a2 w2] [results|e|]]; cbn [fst snd] in Ha;
    subst a2; [|split; reflexivity|split; reflexivity].
  destruct (sendMessage generateContent _ w2 (MsgParts results)) as [[c3 w3] [ms r'|ms e|]];
    split; reflexivity.
Qed.

(** Every way through the body of the loop.  It returns only for a
    response without function calls; it goes on only after a response
    with function calls, whose results were sent and answered with
    the next response. *)
Lemma turn_cases (a : Agent) (w : World G JsValue) (t : nat) (response : list (Part JsValue)) :
  let r := turn generateContent engine a w t response in
  match r.2 with
  | Done (Returned res) =>
      functionCalls response = []
      /\ res = Success (joinTexts response) (stepCount a + 1) (now w - t)
      /\ r.1.1 = set_stepCount (stepCount a + 1) a /\ r.1.2 = w
  | Continue response' =>
      functionCalls response <> []
      /\ exists (k : nat) (results : list (Part JsValue)),
          r.1.1 = set_chat {| cs_model := cs_model (chat a);
                              history :=
                                if isValidResponse response'
                                then history (chat a)
                                       ++ [{| role := Function; parts := results |};
                                           {| role := Model; parts := response' |}]
                                else history (chat a) |}
                    (set_totalCalls (totalCalls a + Z.of_nat k)
                       (set_stepCount (stepCount a + 1) a))
  | Done _ => True
  end.
Proof.
  unfold turn.
  destruct (functionCalls response) as [|c cs] eqn:Hcalls; [cbn; auto|].
  destruct (executeCalls_totalCalls (c :: cs) (set_stepCount (stepCount a + 1) a) w [])
    as (k & Ha & _).
  destruct (executeCalls _ _ w (c :: cs) []) as [[a2 w2] [results|e|]]; [|exact I|exact I].
  cbn [fst snd] in Ha. subst a2.
  change (chat (set_totalCalls ?n (set_stepCount ?m a))) with (chat a).
  pose proof (sendMessage_history (chat a) w2 (MsgParts results)) as Hh.
  cbn zeta in Hh.
  destruct (sendMessage generateContent (chat a) w2 (MsgParts results))
    as [[c3 w3] [ms r'|ms e|]]; cbn in *; [|exact I|exact I].
  split; [discriminate|]. exists k, results. rewrite Hh. reflexivity.
Qed.

(** The loop only ever adds to the record of requests. *)
Lemma loop_sent (n : nat) :
  forall (a : Agent) (w : World G JsValue) (t : nat) (response : list (Part JsValue)),
    exists more, sent (loop generateContent engine n a w t response).1.2 = sent w ++ more.
Proof.
  induction n as [|n IH]; intros a w t response; cbn [loop].
  - exists []. rewrite app_nil_r. reflexivity.
  - unfold turn.
    destruct (functionCalls response) as [|c cs].
    { exists []. rewrite app_nil_r. reflexivity. }
    destruct (executeCalls_totalCalls (c :: cs) (set_stepCount (stepCount a + 1) a) w [])
      as (k & _ & _ & Hs & _).
    destruct (executeCalls _ _ w (c :: cs) []) as [[a2 w2] [results|e|]]; cbn [fst snd] in Hs.
    2:{ exists []. cbn. rewrite app_nil_r. exact Hs. }
    2:{ exists []. cbn. rewrite app_nil_r. exact Hs. }
    pose proof (sendMessage_sent (chat a2) w2 (MsgParts results)) as Hsent.
    destruct (sendMessage generateContent (chat a2) w2 (MsgParts results))
      as [[c3 w3] [ms r'|ms e|]]; cbn [fst snd] in Hsent.
    + destruct (IH (set_chat c3 a2) w3 t r') as [more Hmore].
      rewrite Hmore, Hsent, Hs, <- app_assoc. eauto.
    + cbn. rewrite Hsent, Hs. eauto.
    + cbn. rewrite Hsent, Hs. eauto.
Qed.

(** C7. [reset()] and then [run(x)]: the first request [run] makes
    carries exactly one content, the user turn with [x]; nothing of an
    earlier conversation is in it, whatever the agent's history was;
    and the request is for the model the agent was built with, so the
    same system prompt and tool declarations (and the same tool
    functions) stay in effect. *)
Theorem reset_then_run_fresh (a : Agent) (w : World G JsValue) (x : string) :
  (exists more,
      sent (run generateContent engine (reset a) w x None).1.2
      = sent w ++ {| rq_model := geminiModel a;
                     contents := [{| role := User; parts := [textPart x] |}] |} :: more)
  /\ history (chat (reset a)) = []
  /\ sameSetup a (reset a)
  /\ (forall c : ChatSession JsValue, reset (set_chat c a) = reset a).
Proof.
  split; [|repeat split].
  unfold run.
  pose proof (sendMessage_sent (chat (set_stepCount 0 (reset a))) w
                (MsgText (fullMessage engine x None))) as Hsent.
  destruct (sendMessage generateContent _ w _) as [[c1 w1] [ms r|ms e|]];
    cbn [fst snd] in Hsent.
  - match goal with
    | |- context [loop _ _ ?n ?a1 w1 ?t r] => destruct (loop_sent n a1 w1 t r) as [more Hmore]
    end.
    exists more. rewrite Hmore, Hsent, <- app_assoc. reflexivity.
  - exists []. cbn [fst snd]. rewrite Hsent. reflexivity.
  - exists []. cbn [fst snd]. rewrite Hsent. reflexivity.
Qed.

Lemma modelTurns_app (h1 h2 : list (Content JsValue)) :
  modelTurns (h1 ++ h2) = modelTurns h1 ++ modelTurns h2.
Proof. unfold modelTurns. apply omap_app. Qed.

(** C9, amended. With a budget of at least one step, a first response
    without function calls makes [run] return success with [steps]
    equal to 1: the counter is incremented before the response is
    looked at. *)
Theorem first_answer_is_step_one (a : Agent) (w : World G JsValue) (userMessage : string)
    (context : option JsValue) (g' : G) (ms : nat) (response : list (Part JsValue)) :
  1 <= maxSteps a ->
  generateContent (gw w) (firstRequest engine a userMessage context)
  = (g', Fulfilled ms response) ->
  functionCalls response = [] ->
  exists a' w',
    run generateContent engine a w userMessage context
    = (a', w', Returned (Success (joinTexts response) 1 ms))
    /\ st_lastSteps (getStats a') = 1.
Proof.
  intros Hmax Hfirst Hcalls. unfold run, sendMessage.
  change (cs_model (chat (set_stepCount 0 a))) with (cs_model (chat a)).
  change (history (chat (set_stepCount 0 a))) with (history (chat a)).
  unfold firstRequest in Hfirst. cbn [formatNewContent]. rewrite Hfirst.
  change (maxSteps (set_stepCount 0 a) - stepCount (set_stepCount 0 a))
    with (maxSteps a - 0).
  destruct (Z.to_nat (maxSteps a - 0)) as [|n] eqn:Hn; [lia|].
  cbn [loop]. rewrite turn_final by exact Hcalls.
  do 2 eexists. split.
  - cbn. replace (now w + ms - now w)%nat with ms by lia. reflexivity.
  - reflexivity.
Qed.

Lemma turn_totalCalls (a : Agent) (w : World G JsValue) (t : nat) (response : list (Part JsValue)) :
  exists k : nat,
    totalCalls (turn generateContent engine a w t response).1.1 = totalCalls a + Z.of_nat k
    /\ length (dispatched (turn generateContent engine a w t response).1.2)
       = (length (dispatched w) + k)%nat.
Proof.
  unfold turn.
  destruct (functionCalls response) as [|c cs].
  { exists 0%nat. cbn. lia. }
  destruct (executeCalls_totalCalls (c :: cs) (set_stepCount (stepCount a + 1) a) w [])
    as (k & Ha & Hd & _).
  destruct (executeCalls _ _ w (c :: cs) []) as [[a2 w2] [results|e|]]; cbn [fst snd] in Ha, Hd.
  2:{ exists k. subst a2. cbn. auto. }
  2:{ exists k. subst a2. cbn. auto. }
  pose proof (sendMessage_dispatched (chat a2) w2 (MsgParts results)) as Hdis.
  destruct (sendMessage generateContent (chat a2) w2 (MsgParts results))
    as [[c3 w3] [ms r'|ms e|]]; cbn [fst snd] in *;
    exists k; subst a2; cbn; rewrite Hdis; auto.
Qed.

Lemma loop_totalCalls (n : nat) :
  forall (a : Agent) (w : World G JsValue) (t : nat) (response : list (Part JsValue)),
    exists k : nat,
      totalCalls (loop generateContent engine n a w t response).1.1 = totalCalls a + Z.of_nat k
      /\ length (dispatched (loop generateContent engine n a w t response).1.2)
         = (length (dispatched w) + k)%nat.
Proof.
  induction n as [|n IH]; intros a w t response; cbn [loop].
  - exists 0%nat. cbn. lia.
  - destruct (turn_totalCalls a w t response) as (k & Ha & Hd).
    destruct (turn generateContent engine a w t response) as [[a1 w1] [c|r']];
      cbn [fst snd] in *.
    + exists k. auto.
    + destruct (IH a1 w1 t r') as (k' & Ha' & Hd').
      exists (k + k')%nat. rewrite Ha', Hd', Ha, Hd. lia.
Qed.

Lemma run_totalCalls (a : Agent) (w : World G JsValue) (userMessage : string)
    (context : option JsValue) :
  exists k : nat,
    totalCalls (run generateContent engine a w userMessage context).1.1
    = totalCalls a + Z.of_nat k
    /\ length (dispatched (run generateContent engine a w userMessage context).1.2)
       = (length (dispatched w) + k)%nat.
Proof.
  unfold run.
  pose proof (sendMessage_dispatched (chat (set_stepCount 0 a)) w
                (MsgText (fullMessage engine userMessage context))) as Hdis.
  destruct (sendMessage generateContent _ w _) as [[c1 w1] [ms r|ms e|]];
    cbn [fst snd] in Hdis.
  - match goal with
    | |- context [loop _ _ ?n ?a1 w1 ?t r] =>
        destruct (loop_totalCalls n a1 w1 t r) as (k & Ha & Hd)
    end.
    exists k. rewrite Ha, Hd, Hdis. cbn. auto.
  - exists 0%nat. cbn. rewrite Hdis. lia.
  - exists 0%nat. cbn. rewrite Hdis. lia.
Qed.

Lemma session_totalCalls (ops : list Op) :
  forall (a : Agent) (w : World G JsValue),
    exists k : nat,
      totalCalls (session generateContent engine ops a w).1 = totalCalls a + Z.of_nat k
      /\ length (dispatched (session generateContent engine ops a w).2)
         = (length (dispatched w) + k)%nat.
Proof.
  induction ops as [|[userMessage context|] ops IH]; intros a w; cbn [session].
  - exists 0%nat. cbn. lia.
  - destruct (run_totalCalls a w userMessage context) as (k & Ha & Hd).
    destruct (run generateContent engine a w userMessage context) as [[a1 w1] [res|e|]];
      cbn [fst snd] in *.
    + destruct (IH a1 w1) as (k' & Ha' & Hd').
      exists (k + k')%nat. rewrite Ha', Hd', Ha, Hd. lia.
    + destruct (IH a1 w1) as (k' & Ha' & Hd').
      exists (k + k')%nat. rewrite Ha', Hd', Ha, Hd. lia.
    + exists k. auto.
  - destruct (IH (reset a) w) as (k & Ha & Hd). exists k. rewrite Ha, Hd. auto.
Qed.

(** A longer session is the shorter one carried on (or, if a [run] of
    the shorter one hung, the shorter one itself). *)
Lemma session_app (ops1 ops2 : list Op) :
  forall (a : Agent) (w : World G JsValue),
    exists ops',
      session generateContent engine (ops1 ++ ops2) a w
      = session generateContent engine ops'
          (session generateContent engine ops1 a w).1
          (session generateContent engine ops1 a w).2.
Proof.
  induction ops1 as [|[userMessage context|] ops1 IH]; intros a w; cbn [session app].
  - exists ops2. reflexivity.
  - destruct (run generateContent engine a w userMessage context) as [[a1 w1] [res|e|]];
      [apply IH | apply IH | exists []; reflexivity].
  - apply IH.
Qed.

(** C10. [reset()] starts a new conversation and sets the per-run step
    counter to zero, and leaves [totalCalls] as it is.  [run] adds to
    [totalCalls] one for every tool call it dispatches and never
    lowers it.  So over any sequence of [run] and [reset] calls,
    [getStats().totalCalls] is the starting value plus the number of
    tool calls dispatched since, and it never decreases as the
    sequence is extended. *)
Theorem totalCalls_accumulates :
  (forall a : Agent,
      st_totalCalls (getStats (reset a)) = st_totalCalls (getStats a)
      /\ st_lastSteps (getStats (reset a)) = 0
      /\ chat (reset a) = startChat (geminiModel a)
      /\ sameSetup a (reset a))
  /\ (forall (a : Agent) (w : World G JsValue) (userMessage : string)
             (context : option JsValue),
         exists k : nat,
           st_totalCalls (getStats (run generateContent engine a w userMessage context).1.1)
           = st_totalCalls (getStats a) + Z.of_nat k
           /\ length (dispatched (run generateContent engine a w userMessage context).1.2)
              = (length (dispatched w) + k)%nat)
  /\ (forall (ops : list Op) (a : Agent) (w : World G JsValue),
         exists k : nat,
           st_totalCalls (getStats (session generateContent engine ops a w).1)
           = st_totalCalls (getStats a) + Z.of_nat k
           /\ length (dispatched (session generateContent engine ops a w).2)
              = (length (dispatched w) + k)%nat)
  /\ (forall (ops more : list Op) (a : Agent) (w : World G JsValue),
         st_totalCalls (getStats (session generateContent engine ops a w).1)
         <= st_totalCalls (getStats (session generateContent engine (ops ++ more) a w).1)).
Proof.
  split; [|split; [|split]].
  - intros a. repeat split.
  - intros a w userMessage context. apply run_totalCalls.
  - intros ops a w. apply session_totalCalls.
  - intros ops more a w.
    destruct (session_app ops more a w) as [ops' ->].
    destruct (session_totalCalls ops'
                (session generateContent engine ops a w).1
                (session generateContent engine ops a w).2) as (k & Hk & _).
    cbn [getStats st_totalCalls]. rewrite Hk. lia.
Qed.

(** What leaves a batch as an exception: the [TypeError] of the
    [catch] block of a tool of the table whose failure could not be
    reported. *)
Lemma executeCalls_Threw (calls : list (FunctionCall JsValue)) :
  forall (a a' : Agent) (w w' : World G JsValue) (acc : list (Part JsValue)) (err : Thrown),
    executeCalls engine a w calls acc = (a', w', Threw err) ->
    exists c fn ms e,
      In c calls /\ getOwn (fc_name c) (toolFns a) = Some fn
      /\ fn (fc_args c) = Rejected ms e
      /\ caught engine e (fc_name c) = inr err.
Proof.
  induction calls as [|c rest IH]; intros a a' w w' acc err Hx; [discriminate|].
  cbn [executeCalls] in Hx.
  change (toolFns (set_totalCalls (totalCalls a + 1) a)) with (toolFns a) in Hx.
  assert (Hrest : forall a1 w1 acc1,
             executeCalls engine a1 w1 rest acc1 = (a', w', Threw err) ->
             toolFns a1 = toolFns a ->
             exists c0 fn ms e,
               In c0 (c :: rest) /\ getOwn (fc_name c0) (toolFns a) = Some fn
               /\ fn (fc_args c0) = Rejected ms e
               /\ caught engine e (fc_name c0) = inr err).
  { intros a1 w1 acc1 H1 Hsame.
    apply IH in H1 as (c0 & fn & ms & e & Hin & Hl & Hfn & Hc). rewrite Hsame in Hl.
    exists c0, fn, ms, e. split; [right; exact Hin|]. auto. }
  destruct (invoke engine (toolFns a) c) as [ms v|ms e|] eqn:Hinv; [| |discriminate].
  - exact (Hrest _ _ _ Hx eq_refl).
  - destruct (caught engine e (fc_name c)) as [payload|te] eqn:Hcaught.
    + exact (Hrest _ _ _ Hx eq_refl).
    + injection Hx as _ _ <-.
      unfold invoke, member in Hinv.
      destruct (getOwn (fc_name c) (toolFns a)) as [fn|] eqn:Hl.
      * exists c, fn, ms, e. split; [left; reflexivity|]. auto.
      * assert (Herr : exists message, e = JsError message).
        { destruct (inherited (fc_name c)).
          - destruct (callInherited engine (fc_name c) (fc_args c)); [discriminate|].
            injection Hinv as _ <-. eauto.
          - injection Hinv as _ <-. eauto. }
        destruct Herr as [message ->]. discriminate.
Qed.

(** The request a pass through the body adds to the record, if it adds
    one: the history followed by the results of the batch, one result
    per call, in the order of the calls. *)
Lemma turn_sends (a a' : Agent) (w w' : World G JsValue) (t : nat)
    (response : list (Part JsValue)) (nxt : Next) (rq : Request JsValue) :
  turn generateContent engine a w t response = (a', w', nxt) ->
  sent w' = sent w ++ [rq] ->
  exists results,
    rq = {| rq_model := cs_model (chat a);
            contents := history (chat a) ++ [{| role := Function; parts := results |}] |}
    /\ Forall2 (fun c r => expectedResult engine (toolFns a) c = Some r)
               (functionCalls response) results.
Proof.
  unfold turn. intros Hturn Hsent.
  assert (Hno : forall s : list (Request JsValue), s = s ++ [rq] -> False).
  { intros s Hs. apply (f_equal length) in Hs. rewrite length_app in Hs. cbn in Hs. lia. }
  destruct (functionCalls response) as [|c cs].
  { injection Hturn as <- <- <-. destruct (Hno _ Hsent). }
  destruct (executeCalls_totalCalls (c :: cs) (set_stepCount (stepCount a + 1) a) w [])
    as (k & Ha & _ & Hs & _).
  destruct (executeCalls _ _ w (c :: cs) []) as [[a2 w2] [results|e|]] eqn:Hx;
    cbn [fst snd] in Ha, Hs.
  2:{ injection Hturn as <- <- <-. rewrite Hs in Hsent. destruct (Hno _ Hsent). }
  2:{ injection Hturn as <- <- <-. rewrite Hs in Hsent. destruct (Hno _ Hsent). }
  apply executeCalls_Returned in Hx as (rs & Hrs & ->). cbn [app] in *.
  change (toolFns (set_stepCount (stepCount a + 1) a)) with (toolFns a) in Hrs.
  pose proof (sendMessage_sent (chat a2) w2 (MsgParts rs)) as Hnew.
  assert (w3eq : (sendMessage generateContent (chat a2) w2 (MsgParts rs)).1.2 = w').
  { destruct (sendMessage generateContent (chat a2) w2 (MsgParts rs))
      as [[c3 w3] [ms r'|ms e|]]; injection Hturn as <- <- <-; reflexivity. }
  rewrite w3eq, Hs, Hsent in Hnew. apply app_inj_tail in Hnew as [_ ->].
  subst a2. exists rs. split; [reflexivity | exact Hrs].
Qed.

(** An exception leaves the body of the loop only when the model
    service rejected a request, or from the [catch] block of a tool of
    the table whose failure could not be reported. *)
Lemma turn_throws (a a' : Agent) (w w' : World G JsValue) (t : nat)
    (response : list (Part JsValue)) (err : Thrown) :
  turn generateContent engine a w t response = (a', w', Done (Threw err)) ->
  (exists g rq g' ms, generateContent g rq = (g', Rejected ms err))
  \/ (exists c fn ms e,
         In c (functionCalls response) /\ getOwn (fc_name c) (toolFns a) = Some fn
         /\ fn (fc_args c) = Rejected ms e
         /\ caught engine e (fc_name c) = inr err).
Proof.
  unfold turn. intros Hturn.
  destruct (functionCalls response) as [|c cs]; [discriminate|].
  destruct (executeCalls _ _ w (c :: cs) []) as [[a2 w2] [results|e|]] eqn:Hx;
    [| |discriminate].
  - left. unfold sendMessage in Hturn.
    destruct (generateContent _ _) as [g' [ms r'|ms e|]] eqn:Hg; try discriminate.
    injection Hturn as _ _ <-. eauto.
  - right. injection Hturn as _ _ <-.
    exact (executeCalls_Threw _ _ _ _ _ _ _ Hx).
Qed.

(** With a model service that answers by the book, a response with
    function calls is followed up: the batch runs, its results are
    sent, and the next response of the book comes back. *)
Lemma turn_replied (a : Agent) (w : World G JsValue) (t : nat)
    (response r1 : list (Part JsValue)) (rs : list (list (Part JsValue))) :
  (forall nm fn args, getOwn nm (toolFns a) = Some fn -> fn args <> Pending) ->
  (forall nm fn args ms err,
      getOwn nm (toolFns a) = Some fn -> fn args = Rejected ms err -> catchable engine err) ->
  functionCalls response <> [] ->
  replies generateContent (gw w) (r1 :: rs) ->
  exists a' w',
    turn generateContent engine a w t response = (a', w', Continue r1)
    /\ toolFns a' = toolFns a /\ maxSteps a' = maxSteps a
    /\ stepCount a' = stepCount a + 1
    /\ totalCalls a' = totalCalls a + Z.of_nat (length (functionCalls response))
    /\ length (sent w') = S (length (sent w))
    /\ length (dispatched w')
       = (length (dispatched w) + length (functionCalls response))%nat
    /\ replies generateContent (gw w') rs.
Proof.
  intros Hfns Hcatch Hne Hreplies.
  destruct (invoke_settles _ Hfns Hcatch (functionCalls response)) as [results Hrs].
  rewrite (turn_calls a w t response results Hne Hrs). cbn zeta.
  set (w2 := mkWorld _ _ _ _).
  pose proof (sendMessage_sent (chat a) w2 (MsgParts results)) as Hsent.
  pose proof (sendMessage_dispatched (chat a) w2 (MsgParts results)) as Hdis.
  unfold sendMessage in *.
  destruct (Hreplies {| rq_model := cs_model (chat a);
                        contents := history (chat a) ++ [formatNewContent (MsgParts results)] |})
    as (g' & ms & Hg & Hrest).
  change (gw w2) with (gw w) in *.
  rewrite Hg in *. cbn [fst snd] in *.
  do 2 eexists. split; [reflexivity|].
  cbn [toolFns maxSteps stepCount totalCalls set_chat set_totalCalls set_stepCount
       tick gw].
  repeat split; try assumption.
  - rewrite Hsent. subst w2. cbn. rewrite length_app. cbn. lia.
  - rewrite Hdis. subst w2. cbn. rewrite length_app. f_equal.
    clear. generalize (now w).
    induction (functionCalls response) as [|c cs IH]; intros n; cbn; [reflexivity|].
    rewrite IH. reflexivity.
Qed.

(** The loop under a model service that answers by the book, within
    the budget: it goes through the responses that have function
    calls and returns the text of the first one that has none. *)
Lemma loop_replied (pre : list (list (Part JsValue))) :
  forall (n : nat) (a : Agent) (w : World G JsValue) (t : nat)
         (r0 last : list (Part JsValue)) (rs : list (list (Part JsValue))),
    (forall nm fn args, getOwn nm (toolFns a) = Some fn -> fn args <> Pending) ->
    (forall nm fn args ms err,
        getOwn nm (toolFns a) = Some fn -> fn args = Rejected ms err -> catchable engine err) ->
    r0 :: rs = pre ++ [last] ->
    Forall hasCalls pre ->
    functionCalls last = [] ->
    replies generateContent (gw w) rs ->
    (length pre < n)%nat ->
    exists a' w' elapsed,
      loop generateContent engine n a w t r0
      = (a', w', Returned (Success (joinTexts last)
                             (stepCount a + Z.of_nat (length pre) + 1) elapsed))
      /\ totalCalls a' = totalCalls a + Z.of_nat (callsRequested pre)
      /\ length (sent w') = (length (sent w) + length pre)%nat
      /\ length (dispatched w') = (length (dispatched w) + callsRequested pre)%nat.
Proof.
  induction pre as [|p pre IH]; intros n a w t r0 last rs Hfns Hcatch Hbook Hpre Hlast Hrs Hn.
  - cbn in Hbook. injection Hbook as -> ->.
    destruct n as [|n]; [cbn in Hn; lia|].
    cbn [loop]. rewrite turn_final by exact Hlast.
    do 3 eexists. split; [cbn; rewrite Z.add_0_r; reflexivity|].
    cbn. repeat split; lia.
  - cbn in Hbook. injection Hbook as -> ->.
    inversion Hpre as [|? ? Hp Hpre']; subst.
    destruct n as [|n]; [cbn in Hn; lia|].
    destruct (pre ++ [last]) as [|r1 rs'] eqn:Hnext.
    { destruct pre; discriminate. }
    destruct (turn_replied a w t p r1 rs' Hfns Hcatch Hp Hrs)
      as (a1 & w1 & Hturn & Hsame & Hmax & Hstep & Htotal & Hsent & Hdis & Hrs').
    cbn [loop]. rewrite Hturn.
    destruct (IH n a1 w1 t r1 last rs') as (a' & w' & el & Hloop & Htotal' & Hsent' & Hdis').
    + rewrite Hsame. exact Hfns.
    + rewrite Hsame. exact Hcatch.
    + symmetry. exact Hnext.
    + exact Hpre'.
    + exact Hlast.
    + exact Hrs'.
    + cbn in Hn. lia.
    + exists a', w', el. rewrite Hloop, Htotal', Hsent', Hdis', Hstep, Htotal, Hsent, Hdis.
      unfold callsRequested. cbn [length sum_list_with].
      split; [do 3 f_equal; lia|]. repeat split; lia.
Qed.

(** The same loop when the budget runs out first: the responses
    within the budget all had function calls, and the one received
    after them is not looked at. *)
Lemma loop_outrun (n : nat) :
  forall (a : Agent) (w : World G JsValue) (t : nat)
         (r0 : list (Part JsValue)) (rs : list (list (Part JsValue))),
    (forall nm fn args, getOwn nm (toolFns a) = Some fn -> fn args <> Pending) ->
    (forall nm fn args ms err,
        getOwn nm (toolFns a) = Some fn -> fn args = Rejected ms err -> catchable engine err) ->
    Forall hasCalls (take n (r0 :: rs)) ->
    (n <= length rs)%nat ->
    replies generateContent (gw w) rs ->
    exists a' w',
      loop generateContent engine n a w t r0
      = (a', w', Returned (Failure (maxStepsMessage engine (maxSteps a))
                             (stepCount a + Z.of_nat n)))
      /\ totalCalls a' = totalCalls a + Z.of_nat (callsRequested (take n (r0 :: rs)))
      /\ length (sent w') = (length (sent w) + n)%nat
      /\ length (dispatched w')
         = (length (dispatched w) + callsRequested (take n (r0 :: rs)))%nat.
Proof.
  induction n as [|n IH]; intros a w t r0 rs Hfns Hcatch Hcalls Hlen Hrs.
  - exists a, w. cbn. unfold failure, callsRequested. cbn.
    rewrite !Z.add_0_r, !Nat.add_0_r. auto.
  - cbn [take firstn] in Hcalls. inversion Hcalls as [|? ? Hr0 Hrest]; subst.
    destruct rs as [|r1 rs']; [cbn in Hlen; lia|].
    destruct (turn_replied a w t r0 r1 rs' Hfns Hcatch Hr0 Hrs)
      as (a1 & w1 & Hturn & Hsame & Hmax & Hstep & Htotal & Hsent & Hdis & Hrs').
    cbn [loop]. rewrite Hturn.
    destruct (IH a1 w1 t r1 rs') as (a' & w' & Hloop & Htotal' & Hsent' & Hdis').
    + rewrite Hsame. exact Hfns.
    + rewrite Hsame. exact Hcatch.
    + exact Hrest.
    + cbn in Hlen. lia.
    + exact Hrs'.
    + exists a', w'. rewrite Hloop, Htotal', Hsent', Hdis', Hstep, Htotal, Hsent, Hdis, Hmax.
      unfold callsRequested. cbn [take firstn length sum_list_with].
      split; [do 3 f_equal; lia|]. repeat split; lia.
Qed.


(** What no pass through the body changes: the setup of the agent and
    the model of its chat; and every request of the pass is for that
    model. *)
Lemma turn_keeps (a : Agent) (w : World G JsValue) (t : nat) (response : list (Part JsValue)) :
  let r := turn generateContent engine a w t response in
  sameSetup a r.1.1
  /\ cs_model (chat r.1.1) = cs_model (chat a)
  /\ exists more,
      sent r.1.2 = sent w ++ more
      /\ Forall (fun rq => rq_model rq = cs_model (chat a)) more.
Proof.
  cbn zeta. unfold turn.
  destruct (functionCalls response) as [|c cs].
  { cbn. repeat split. exists []. rewrite app_nil_r. auto. }
  destruct (executeCalls_totalCalls (c :: cs) (set_stepCount (stepCount a + 1) a) w [])
    as (k & Ha & _ & Hs & _).
  destruct (executeCalls _ _ w (c :: cs) []) as [[a2 w2] [results|e|]];
    cbn [fst snd] in Ha, Hs; subst a2.
  2:{ cbn. repeat split. exists []. rewrite app_nil_r. auto. }
  2:{ cbn. repeat split. exists []. rewrite app_nil_r. auto. }
  pose proof (sendMessage_sent
                (chat (set_totalCalls (totalCalls (set_stepCount (stepCount a + 1) a) + Z.of_nat k)
                         (set_stepCount (stepCount a + 1) a))) w2 (MsgParts results)) as Hsent.
  pose proof (sendMessage_model
                (chat (set_totalCalls (totalCalls (set_stepCount (stepCount a + 1) a) + Z.of_nat k)
                         (set_stepCount (stepCount a + 1) a))) w2 (MsgParts results)) as Hmodel.
  destruct (sendMessage generateContent _ w2 (MsgParts results)) as [[c3 w3] [ms r'|ms e|]];
    cbn [fst snd] in *;
    (split; [repeat split|]); (split; [exact Hmodel|]);
    eexists; (split; [rewrite Hsent, Hs; reflexivity|]);
    constructor; [reflexivity|constructor|reflexivity|constructor|reflexivity|constructor].
Qed.

Lemma sameSetup_trans (a b c : Agent) : sameSetup a b -> sameSetup b c -> sameSetup a c.
Proof.
  unfold sameSetup. intros (H1 & H2 & H3 & H4 & H5) (K1 & K2 & K3 & K4 & K5).
  repeat split; congruence.
Qed.

Lemma loop_keeps (n : nat) :
  forall (a : Agent) (w : World G JsValue) (t : nat) (response : list (Part JsValue)),
    let r := loop generateContent engine n a w t response in
    sameSetup a r.1.1
    /\ cs_model (chat r.1.1) = cs_model (chat a)
    /\ exists more,
        sent r.1.2 = sent w ++ more
        /\ Forall (fun rq => rq_model rq = cs_model (chat a)) more.
Proof.
  induction n as [|n IH]; intros a w t response; cbn zeta; cbn [loop].
  - cbn. repeat split. exists []. rewrite app_nil_r. auto.
  - pose proof (turn_keeps a w t response) as Hturn. cbn zeta in Hturn.
    destruct (turn generateContent engine a w t response) as [[a1 w1] [c|r']];
      cbn [fst snd] in *; [exact Hturn|].
    destruct Hturn as (Hsame & Hmodel & more1 & Hsent1 & Hall1).
    destruct (IH a1 w1 t r') as (Hsame' & Hmodel' & more2 & Hsent2 & Hall2).
    split; [exact (sameSetup_trans _ _ _ Hsame Hsame')|].
    split; [congruence|].
    exists (more1 ++ more2). split; [rewrite Hsent2, Hsent1, <- app_assoc; reflexivity|].
    apply Forall_app. split; [exact Hall1|].
    rewrite Hmodel in Hall2. exact Hall2.
Qed.

Lemma run_keeps (a : Agent) (w : World G JsValue) (userMessage : string)
    (context : option JsValue) :
  let r := run generateContent engine a w userMessage context in
  sameSetup a r.1.1
  /\ cs_model (chat r.1.1) = cs_model (chat a)
  /\ exists more,
      sent r.1.2 = sent w ++ firstRequest engine a userMessage context :: more
      /\ Forall (fun rq => rq_model rq = cs_model (chat a)) more.
Proof.
  cbn zeta. unfold run.
  pose proof (sendMessage_sent (chat (set_stepCount 0 a)) w
                (MsgText (fullMessage engine userMessage context))) as Hsent.
  pose proof (sendMessage_model (chat (set_stepCount 0 a)) w
                (MsgText (fullMessage engine userMessage context))) as Hmodel.
  destruct (sendMessage generateContent _ w _) as [[c1 w1] [ms r|ms e|]];
    cbn [fst snd] in Hsent, Hmodel.
  - match goal with
    | |- context [loop _ _ ?n ?a1 w1 ?t r] =>
        destruct (loop_keeps n a1 w1 t r) as (Hsame & Hm & more & Hmore & Hall)
    end.
    split; [exact Hsame|]. split; [rewrite Hm; exact Hmodel|].
    exists more. split; [rewrite Hmore, Hsent, <- app_assoc; reflexivity|].
    cbn [chat set_chat] in Hall. rewrite Hmodel in Hall. exact Hall.
  - cbn [fst snd]. split; [repeat split|]. split; [exact Hmodel|].
    exists []. split; [rewrite Hsent; reflexivity | constructor].
  - cbn [fst snd]. split; [repeat split|]. split; [exact Hmodel|].
    exists []. split; [rewrite Hsent; reflexivity | constructor].
Qed.

(** The results of a batch answer its calls name by name. *)
Lemma expectedResult_names (fns : list (string * ToolFn))
    (calls : list (FunctionCall JsValue)) (rs : list (Part JsValue)) :
  Forall2 (fun c r => expectedResult engine fns c = Some r) calls rs ->
  responseNames rs = map fc_name calls /\ length rs = length calls.
Proof.
  induction 1 as [|c r calls rs Hc _ [IHn IHl]]; [split; reflexivity|].
  unfold expectedResult in Hc.
  destruct (invoke engine fns c) as [ms v|ms e|]; [| |discriminate].
  - injection Hc as <-. cbn. unfold responseNames in IHn. rewrite IHn, IHl. split; reflexivity.
  - destruct (caught engine e (fc_name c)) as [payload|te]; [|discriminate].
    injection Hc as <-. cbn. unfold responseNames in IHn. rewrite IHn, IHl. split; reflexivity.
Qed.

(** A pass through the body that goes on: what it did to the agent and
    to the world. *)
Lemma turn_continue (a a' : Agent) (w w' : World G JsValue) (t : nat)
    (response response' : list (Part JsValue)) :
  turn generateContent engine a w t response = (a', w', Continue response') ->
  functionCalls response <> []
  /\ exists results rq g g' ms,
      Forall2 (fun c r => expectedResult engine (toolFns a) c = Some r)
              (functionCalls response) results
      /\ generateContent g rq = (g', Fulfilled ms response')
      /\ a' = set_chat {| cs_model := cs_model (chat a);
                          history :=
                            if isValidResponse response'
                            then history (chat a)
                                   ++ [{| role := Function; parts := results |};
                                       {| role := Model; parts := response' |}]
                            else history (chat a) |}
                (set_totalCalls (totalCalls a + Z.of_nat (length (functionCalls response)))
                   (set_stepCount (stepCount a + 1) a))
      /\ sent w' = sent w ++ [rq]
      /\ length (dispatched w')
         = (length (dispatched w) + length (functionCalls response))%nat.
Proof.
  intros Hturn.
  assert (Hne : functionCalls response <> []).
  { intros Hnil. unfold turn in Hturn. rewrite Hnil in Hturn. discriminate. }
  split; [exact Hne|].
  assert (Hrs : exists rs, Forall2 (fun c r => expectedResult engine (toolFns a) c = Some r)
                             (functionCalls response) rs).
  { unfold turn in Hturn.
    destruct (functionCalls response) as [|c cs]; [congruence|].
    destruct (executeCalls _ _ w (c :: cs) []) as [[a2 w2] [results|e|]] eqn:Hx;
      [|discriminate|discriminate].
    apply executeCalls_Returned in Hx as (rs & Hrs & _). exists rs. exact Hrs. }
  destruct Hrs as [rs Hrs].
  rewrite (turn_calls a w t response rs Hne Hrs) in Hturn. cbn zeta in Hturn.
  set (w2 := mkWorld _ _ _ _) in Hturn.
  unfold sendMessage in Hturn.
  destruct (generateContent (gw w2) _) as [g' [ms r'|ms e|]] eqn:Hg;
    cbn [fst snd] in Hturn; try discriminate.
  injection Hturn as <- <- <-.
  exists rs. do 4 eexists. split; [exact Hrs|]. split; [exact Hg|].
  split; [reflexivity|]. split; [reflexivity|].
  subst w2. cbn. rewrite length_app.
  f_equal. clear. generalize (now w).
  induction (functionCalls response) as [|c cs IH]; intros n; cbn; [reflexivity|].
  rewrite IH. reflexivity.
Qed.

(** A pass through the body that ends the call leaves the conversation
    as it was. *)
Lemma turn_done_history (a : Agent) (w : World G JsValue) (t : nat)
    (response : list (Part JsValue)) :
  (forall c, (turn generateContent engine a w t response).2 = Done c ->
             history (chat (turn generateContent engine a w t response).1.1)
             = history (chat a)).
Proof.
  intros c0. unfold turn.
  destruct (functionCalls response) as [|c cs]; [reflexivity|].
  destruct (executeCalls_totalCalls (c :: cs) (set_stepCount (stepCount a + 1) a) w [])
    as (k & Ha & _).
  destruct (executeCalls _ _ w (c :: cs) []) as [[a2 w2] [results|e|]]; cbn [fst snd] in Ha;
    subst a2; [|reflexivity|reflexivity].
  pose proof (sendMessage_history
                (chat (set_totalCalls (totalCalls (set_stepCount (stepCount a + 1) a) + Z.of_nat k)
                         (set_stepCount (stepCount a + 1) a))) w2 (MsgParts results)) as Hh.
  cbn zeta in Hh.
  destruct (sendMessage generateContent _ w2 (MsgParts results)) as [[c3 w3] [ms r'|ms e|]];
    cbn [fst snd] in *; [discriminate| |]; intros _; rewrite Hh; reflexivity.
Qed.

(** With a model service all of whose responses are valid: whatever
    way the loop ends, it has only added to the conversation, and what
    it added is a well-formed stretch. *)
Lemma loop_answered (n : nat) :
  validResponses generateContent ->
  forall (a : Agent) (w : World G JsValue) (t : nat) (response : list (Part JsValue)),
    exists turns,
      history (chat (loop generateContent engine n a w t response).1.1)
      = history (chat a) ++ turns
      /\ answered ({| role := Model; parts := response |} :: turns).
Proof.
  intros Hvalid. induction n as [|n IH]; intros a w t response; cbn [loop].
  - exists []. rewrite app_nil_r. cbn. auto.
  - pose proof (turn_done_history a w t response) as Hdone.
    destruct (turn generateContent engine a w t response) as [[a1 w1] [c|r']] eqn:Hturn.
    + exists []. rewrite app_nil_r. cbn [fst snd] in *. split; [eauto|cbn; auto].
    + clear Hdone.
      apply turn_continue in Hturn as (Hne & results & rq & g & g' & ms & Hrs & Hg & -> & _).
      rewrite (Hvalid _ _ _ _ _ Hg).
      match goal with
      | |- context [loop _ _ n ?a1 w1 t r'] => destruct (IH a1 w1 t r') as (turns & Hh & Hans)
      end.
      exists ([{| role := Function; parts := results |}; {| role := Model; parts := r' |}]
              ++ turns).
      split; [rewrite Hh; cbn [chat set_chat history]; rewrite <- app_assoc; reflexivity|].
      destruct (expectedResult_names _ _ _ Hrs) as [Hnames Hlen].
      cbn [app answered role parts]. repeat split; try assumption.
      apply Hans.
Qed.

(** The books of a loop that returns: the steps it reports and the
    requests it made. *)
Lemma loop_ledger (n : nat) :
  forall (a a' : Agent) (w w' : World G JsValue) (t : nat)
         (response : list (Part JsValue)) (res : RunResult),
    loop generateContent engine n a w t response = (a', w', Returned res) ->
    exists k : nat,
      steps res = stepCount a + Z.of_nat k
      /\ stepCount a' = steps res
      /\ (k <= n)%nat
      /\ if success res
         then (1 <= k)%nat /\ (length (sent w') + 1 = length (sent w) + k)%nat
         else k = n /\ length (sent w') = (length (sent w) + n)%nat.
Proof.
  induction n as [|n IH]; intros a a' w w' t response res Hloop; cbn [loop] in Hloop.
  - injection Hloop as <- <- <-. exists 0%nat. cbn. repeat split; lia.
  - pose proof (turn_cases a w t response) as Hcases. cbn zeta in Hcases.
    destruct (turn generateContent engine a w t response) as [[a1 w1] [[res1|e|]|r']] eqn:Hturn;
      cbn [fst snd] in Hcases; try discriminate.
    + injection Hloop as <- <- <-.
      destruct Hcases as (Hcalls & -> & -> & ->).
      exists 1%nat. cbn. repeat split; lia.
    + clear Hcases.
      apply turn_continue in Hturn as (Hne & results & rq & g & g' & ms & Hrs & _ & -> & Hsent & _).
      apply IH in Hloop as (k & Hsteps & Hcount & Hk & Hreq).
      cbn [chat set_chat history stepCount totalCalls set_totalCalls set_stepCount] in Hsteps.
      exists (S k).
      split; [lia|]. split; [exact Hcount|]. split; [lia|].
      rewrite Hsent, length_app in Hreq. cbn in Hreq.
      destruct (success res); lia.
Qed.

(** X1. The books of a [run] that returns.  The [steps] of the result
    are what [getStats().lastSteps] then shows; they lie between 0 and
    [maxSteps] (0 for a negative [maxSteps]); a success has at least
    one step and a failure exactly the whole budget.  A success costs
    as many requests to the model as it reports steps, a failure one
    more. *)
Theorem run_accounting (a a' : Agent) (w w' : World G JsValue) (userMessage : string)
    (context : option JsValue) (res : RunResult) :
  run generateContent engine a w userMessage context = (a', w', Returned res) ->
  st_lastSteps (getStats a') = steps res
  /\ 0 <= steps res <= Z.max 0 (maxSteps a)
  /\ (success res = true -> 1 <= steps res)
  /\ (success res = false -> steps res = Z.max 0 (maxSteps a))
  /\ length (sent w')
     = (length (sent w) + Z.to_nat (steps res) + (if success res then 0 else 1))%nat.
Proof.
  unfold run. intros Hrun.
  pose proof (sendMessage_sent (chat (set_stepCount 0 a)) w
                (MsgText (fullMessage engine userMessage context))) as Hs.
  destruct (sendMessage generateContent _ w _) as [[c1 w1] [ms r|ms e|]];
    cbn [fst snd] in Hs; try discriminate.
  apply loop_ledger in Hrun as (k & Hsteps & Hcount & Hk & Hreq).
  cbn [stepCount set_chat set_stepCount maxSteps] in Hsteps, Hk, Hreq.
  rewrite Hs, length_app in Hreq. cbn [length] in Hreq.
  cbn [getStats st_lastSteps]. split; [exact Hcount|].
  destruct (success res); cbv iota in Hreq |- *;
    repeat split; intros; try discriminate; lia.
Qed.

(** X2. [totalCalls] counts what the model asked for.  Let the model
    service answer the requests of [run] with the responses [pre] and
    then [last], of which only [last] has no function call, and let
    the tools settle, a failing one in a way the [catch] block can
    report.  Then [run] adds to [totalCalls], and dispatches, exactly
    as many calls as the responses it inspected ask for (the first
    [maxSteps] responses, or all of them if they are fewer), whether
    the named tool exists or not and whether it returned or threw. *)
Theorem totalCalls_counts_requests (a : Agent) (w : World G JsValue) (userMessage : string)
    (context : option JsValue) (pre : list (list (Part JsValue)))
    (last : list (Part JsValue)) :
  replies generateContent (gw w) (pre ++ [last]) ->
  Forall (fun r => functionCalls r <> []) pre ->
  functionCalls last = [] ->
  (forall nm fn args, getOwn nm (toolFns a) = Some fn -> fn args <> Pending) ->
  (forall nm fn args ms err,
      getOwn nm (toolFns a) = Some fn -> fn args = Rejected ms err -> catchable engine err) ->
  let r := run generateContent engine a w userMessage context in
  let inspected := take (Z.to_nat (maxSteps a)) (pre ++ [last]) in
  st_totalCalls (getStats r.1.1)
  = st_totalCalls (getStats a) + Z.of_nat (callsRequested inspected)
  /\ length (dispatched r.1.2) = (length (dispatched w) + callsRequested inspected)%nat.
Proof.
  intros Hbook Hpre Hlast Hfns Hcatch. cbn zeta.
  destruct (pre ++ [last]) as [|r0 rs] eqn:Hall; [destruct pre; discriminate|].
  pose proof (sendMessage_dispatched (chat (set_stepCount 0 a)) w
                (MsgText (fullMessage engine userMessage context))) as Hdis.
  unfold run. unfold sendMessage in *.
  destruct (Hbook {| rq_model := cs_model (chat (set_stepCount 0 a));
                     contents := history (chat (set_stepCount 0 a))
                       ++ [formatNewContent (MsgText (fullMessage engine userMessage context))] |})
    as (g' & ms & Hg & Hrs).
  rewrite Hg in *. cbn [fst snd] in Hdis.
  change (maxSteps (set_stepCount 0 a) - stepCount (set_stepCount 0 a)) with (maxSteps a - 0).
  replace (maxSteps a - 0) with (maxSteps a) by lia.
  assert (Hlen : length rs = length pre).
  { apply (f_equal length) in Hall. rewrite length_app in Hall. cbn in Hall. lia. }
  assert (Hzero : callsRequested (pre ++ [last]) = callsRequested pre).
  { unfold callsRequested. rewrite sum_list_with_app. cbn. rewrite Hlast. cbn. lia. }
  destruct (Nat.lt_ge_cases (length pre) (Z.to_nat (maxSteps a))) as [Hin|Hout].
  - match goal with
    | |- context [loop _ _ ?n ?a1 ?w1 (now w) r0] =>
        destruct (loop_replied pre n a1 w1 (now w) r0 last rs)
          as (a' & w' & el & Hloop & Htotal & _ & Hd);
          [exact Hfns | exact Hcatch | symmetry; exact Hall | exact Hpre | exact Hlast
          | exact Hrs | exact Hin | ]
    end.
    rewrite Hloop. cbn [fst snd getStats st_totalCalls].
    rewrite <- Hall, take_ge by (rewrite length_app; cbn; lia).
    rewrite Hzero, Htotal, Hd, Hdis. split; reflexivity.
  - match goal with
    | |- context [loop _ _ ?n ?a1 ?w1 (now w) r0] =>
        destruct (loop_outrun n a1 w1 (now w) r0 rs)
          as (a' & w' & Hloop & Htotal & _ & Hd);
          [exact Hfns | exact Hcatch | | lia | exact Hrs | ]
    end.
    + rewrite <- Hall, take_app_le by lia. apply Forall_take. exact Hpre.
    + rewrite Hloop. cbn [fst snd getStats st_totalCalls].
      rewrite Htotal, Hd, Hdis. split; reflexivity.
Qed.

(** X3. The conversation is append-only and stays well formed.  With a
    model service all of whose responses are valid for the SDK,
    however a [run] ends (return, throw or hang), the history
    afterwards is the history before followed by what the call added;
    and what it added is either nothing (the first request failed) or
    the user turn followed by a stretch in which every response of the
    model but the last has function calls and is followed by exactly
    one function content answering them, one part per call under the
    name of that call. *)
Theorem conversation_well_formed (a : Agent) (w : World G JsValue) (userMessage : string)
    (context : option JsValue) :
  validResponses generateContent ->
  exists turns,
    history (chat (run generateContent engine a w userMessage context).1.1)
    = history (chat a) ++ turns
    /\ (turns = []
        \/ exists response tail,
            turns = {| role := User;
                       parts := [textPart (fullMessage engine userMessage context)] |}
                    :: {| role := Model; parts := response |} :: tail
            /\ answered ({| role := Model; parts := response |} :: tail)).
Proof.
  intros Hvalid. unfold run, sendMessage.
  destruct (generateContent (gw w) _) as [g' [ms r|ms e|]] eqn:Hg; cbn [fst snd].
  - rewrite (Hvalid _ _ _ _ _ Hg).
    match goal with
    | |- context [loop _ _ ?n ?a1 ?w1 ?t r] =>
        destruct (loop_answered n Hvalid a1 w1 t r) as (turns & Hturns & Hans)
    end.
    exists ([{| role := User; parts := [textPart (fullMessage engine userMessage context)] |};
             {| role := Model; parts := r |}] ++ turns).
    split; [rewrite Hturns; cbn [chat set_chat set_stepCount history formatNewContent];
            rewrite <- app_assoc; reflexivity|].
    right. exists r, turns. split; [reflexivity | exact Hans].
  - exists []. rewrite app_nil_r. cbn. auto.
  - exists []. rewrite app_nil_r. cbn. auto.
Qed.

Lemma loop_settles (n : nat) :
  (forall g rq, (generateContent g rq).2 <> Pending) ->
  forall (a : Agent) (w : World G JsValue) (t : nat) (response : list (Part JsValue)),
    (forall nm fn args, getOwn nm (toolFns a) = Some fn -> fn args <> Pending) ->
    (loop generateContent engine n a w t response).2 <> Hangs.
Proof.
  intros Hgw. induction n as [|n IH]; intros a w t response Hfns; cbn [loop]; [discriminate|].
  pose proof (turn_keeps a w t response) as Hkeeps. cbn zeta in Hkeeps.
  assert (Hturn : (turn generateContent engine a w t response).2 <> Done Hangs).
  { unfold turn.
    destruct (functionCalls response) as [|c0 cs0]; [discriminate|].
    generalize (set_stepCount (stepCount a + 1) a) (@nil (Part JsValue)) w
               (eq_refl : toolFns (set_stepCount (stepCount a + 1) a) = toolFns a).
    induction (c0 :: cs0) as [|c cs IHc]; intros a1 acc w1 Hsame.
    - cbn [executeCalls]. unfold sendMessage.
      match goal with
      | |- context [generateContent ?g ?rq] =>
          pose proof (Hgw g rq) as Hnp; destruct (generateContent g rq) as [g' [ms r'|ms e|]]
      end; cbn [fst snd] in *; [discriminate|discriminate|congruence].
    - cbn [executeCalls].
      change (toolFns (set_totalCalls (totalCalls a1 + 1) a1)) with (toolFns a1).
      assert (Hc : invoke engine (toolFns a1) c <> Pending).
      { unfold invoke, member. rewrite Hsame.
        destruct (getOwn (fc_name c) (toolFns a)) as [fn|] eqn:Hl; [exact (Hfns _ _ _ Hl)|].
        destruct (inherited (fc_name c)); [|discriminate].
        destruct (callInherited engine (fc_name c) (fc_args c)); discriminate. }
      destruct (invoke engine (toolFns a1) c) as [ms v|ms e|]; [| |congruence].
      + apply IHc. exact Hsame.
      + destruct (caught engine e (fc_name c)); [apply IHc; exact Hsame | discriminate]. }
  destruct (turn generateContent engine a w t response) as [[a1 w1] [c|r']];
    cbn [fst snd] in *; [congruence|].
  apply IH. destruct Hkeeps as ((_ & Hsame & _) & _). rewrite Hsame. exact Hfns.
Qed.

(** X4. [run] settles whenever the model service and the tools do: if
    no request to the model and no call of a registered tool stays
    pending for ever, [run] returns or throws, whatever [maxSteps] is
    (negative included) and whatever the model asks for. *)
Theorem run_settles (a : Agent) (w : World G JsValue) (userMessage : string)
    (context : option JsValue) :
  (forall g rq, (generateContent g rq).2 <> Pending) ->
  (forall nm fn args, getOwn nm (toolFns a) = Some fn -> fn args <> Pending) ->
  (run generateContent engine a w userMessage context).2 <> Hangs.
Proof.
  intros Hgw Hfns. unfold run, sendMessage.
  match goal with
  | |- context [generateContent ?g ?rq] =>
      pose proof (Hgw g rq) as Hnp; destruct (generateContent g rq) as [g' [ms r'|ms e|]]
  end; cbn [fst snd] in *; [|discriminate|congruence].
  apply loop_settles; assumption.
Qed.

(** What leaves a [catch] block is the [TypeError] for a failure that
    could not be reported. *)
Lemma caught_inr (e err : Thrown) (nm : string) :
  caught engine e nm = inr err ->
  ~ catchable engine e /\ exists fault, err = JsError (typeErrorText engine fault).
Proof.
  unfold caught. intros H. split.
  - intros (message & text & Hm & Ht). rewrite Hm, Ht in H. discriminate.
  - destruct (messageOf e) as [message|]; [destruct (toStr engine message)|];
      try discriminate; injection H as <-; eauto.
Qed.

Lemma loop_throws (n : nat) :
  forall (a a' : Agent) (w w' : World G JsValue) (t : nat)
         (response : list (Part JsValue)) (err : Thrown) (g0 g1 : G) (rq0 : Request JsValue)
         (ms0 : nat),
    generateContent g0 rq0 = (g1, Fulfilled ms0 response) ->
    loop generateContent engine n a w t response = (a', w', Threw err) ->
    (exists g rq g' ms, generateContent g rq = (g', Rejected ms err))
    \/ (exists g rq g' ms asked c fn ms' e,
           generateContent g rq = (g', Fulfilled ms asked)
           /\ In c (functionCalls asked)
           /\ getOwn (fc_name c) (toolFns a) = Some fn
           /\ fn (fc_args c) = Rejected ms' e
           /\ caught engine e (fc_name c) = inr err).
Proof.
  induction n as [|n IH]; intros a a' w w' t response err g0 g1 rq0 ms0 Hfrom Hloop;
    cbn [loop] in Hloop; [discriminate|].
  pose proof (turn_keeps a w t response) as Hkeeps. cbn zeta in Hkeeps.
  destruct (turn generateContent engine a w t response) as [[a1 w1] [c|r']] eqn:Hturn.
  - injection Hloop as -> -> ->.
    destruct (turn_throws _ _ _ _ _ _ _ Hturn) as [Hgw|(c & fn & ms & e & Hin & Hl & Hfn & Hc)];
      [left; exact Hgw|].
    right. exists g0, rq0, g1, ms0, response, c, fn, ms, e. auto.
  - destruct (turn_continue _ _ _ _ _ _ _ Hturn)
      as (_ & results & rq & g & g' & ms & _ & Hnext & _).
    destruct (IH _ _ _ _ _ _ _ _ _ _ _ Hnext Hloop)
      as [Hgw|(g2 & rq2 & g3 & ms2 & asked & c & fn & ms' & e & Hg & Hin & Hl & Hfn & Hc)];
      [left; exact Hgw|].
    right. destruct Hkeeps as ((_ & Hsame & _) & _). cbn [fst snd] in Hsame.
    rewrite Hsame in Hl. exists g2, rq2, g3, ms2, asked, c, fn, ms', e. auto.
Qed.


(** X6. With [maxSteps] zero or negative the loop body never runs:
    [run] still makes its first request, then returns the failure
    result with [steps] 0 whatever the model answered, without
    calling any tool and without touching [totalCalls].  The exchange
    is in the history afterwards if the SDK holds the response
    valid. *)
Theorem run_without_budget (a : Agent) (w : World G JsValue) (userMessage : string)
    (context : option JsValue) (g' : G) (ms : nat) (response : list (Part JsValue)) :
  maxSteps a <= 0 ->
  generateContent (gw w) (firstRequest engine a userMessage context)
  = (g', Fulfilled ms response) ->
  exists a' w',
    run generateContent engine a w userMessage context
    = (a', w', Returned (Failure (maxStepsMessage engine (maxSteps a)) 0))
    /\ st_totalCalls (getStats a') = st_totalCalls (getStats a)
    /\ dispatched w' = dispatched w
    /\ sent w' = sent w ++ [firstRequest engine a userMessage context]
    /\ history (chat a')
       = if isValidResponse response
         then history (chat a)
                ++ [{| role := User;
                       parts := [textPart (fullMessage engine userMessage context)] |};
                    {| role := Model; parts := response |}]
         else history (chat a).
Proof.
  intros Hmax Hfirst. unfold run, sendMessage.
  change (cs_model (chat (set_stepCount 0 a))) with (cs_model (chat a)).
  change (history (chat (set_stepCount 0 a))) with (history (chat a)).
  unfold firstRequest in Hfirst. cbn [formatNewContent]. rewrite Hfirst.
  change (maxSteps (set_stepCount 0 a) - stepCount (set_stepCount 0 a))
    with (maxSteps a - 0).
  replace (Z.to_nat (maxSteps a - 0)) with 0%nat by lia.
  cbn [loop]. do 2 eexists. split; [reflexivity|].
  cbn. auto.
Qed.

(** X7. Context injection.  A falsy context ([undefined], [null],
    [false], zero, [NaN], the empty string) is the same as no context:
    [run] does exactly what it does without it.  A truthy context is
    appended to the user message after a blank line and the line
    [[Context]:]; a string goes in as it is, a number as the engine
    prints numbers, [true] as [true], and only an object or an array
    through [JSON.stringify]. *)
Theorem context_injection (a : Agent) (w : World G JsValue) (userMessage : string) :
  (forall c : JsValue,
      truthy c = false ->
      run generateContent engine a w userMessage (Some c)
      = run generateContent engine a w userMessage None)
  /\ (forall c : JsValue,
         truthy c = true ->
         exists more,
           sent (run generateContent engine a w userMessage (Some c)).1.2
           = sent w
             ++ {| rq_model := cs_model (chat a);
                   contents :=
                     history (chat a)
                     ++ [{| role := User;
                            parts := [textPart
                                        (userMessage +:+ nl +:+ nl +:+ "[Context]:" +:+ nl
                                         +:+ match c with
                                             | JsStr s => s
                                             | JsNum x => numberText engine x
                                             | JsBool _ => "true"
                                             | _ => stringify engine c
                                             end)] |}] |}
                :: more).
Proof.
  split.
  - intros c Hc. unfold run, fullMessage. rewrite Hc. reflexivity.
  - intros c Hc. unfold run.
    pose proof (sendMessage_sent (chat (set_stepCount 0 a)) w
                  (MsgText (fullMessage engine userMessage (Some c)))) as Hs.
    assert (Htext : fullMessage engine userMessage (Some c)
                    = userMessage +:+ nl +:+ nl +:+ "[Context]:" +:+ nl
                      +:+ match c with
                          | JsStr s => s
                          | JsNum x => numberText engine x
                          | JsBool _ => "true"
                          | _ => stringify engine c
                          end).
    { unfold fullMessage. rewrite Hc. unfold renderContext.
      destruct c as [| |[|]| | | |]; try reflexivity; discriminate. }
    rewrite Htext in Hs |- *.
    destruct (sendMessage generateContent _ w _) as [[c1 w1] [ms r|ms e|]];
      cbn [fst snd] in Hs.
    + match goal with
      | |- context [loop _ _ ?n ?a1 w1 ?t r] =>
          destruct (loop_sent n a1 w1 t r) as [more Hmore]
      end.
      exists more. rewrite Hmore, Hs, <- app_assoc. reflexivity.
    + exists []. cbn [fst snd]. rewrite Hs. reflexivity.
    + exists []. cbn [fst snd]. rewrite Hs. reflexivity.
Qed.


(** X16. The setup is fixed at construction.  Over any sequence of
    [run]s and [reset]s on a newly constructed agent, every request to
    the model is for the model built by the constructor: the model
    name given (or [gemini-1.5-flash]), the system prompt given, and
    the tool declarations given, or none at all when the list of
    tools is empty or omitted; and the tool functions and [maxSteps]
    (20 when omitted) stay what the constructor made them. *)
Theorem setup_is_fixed (cfg : AgentConfig) (ops : list Op) (w : World G JsValue) :
  let built :=
    {| gm_model := default "gemini-1.5-flash" (cfg_model cfg);
       gm_systemInstruction := cfg_systemPrompt cfg;
       gm_tools := match cfg_tools cfg with
                   | None | Some [] => None
                   | Some tools => Some tools
                   end |} in
  let r := session generateContent engine ops (constructor cfg) w in
  (exists more, sent r.2 = sent w ++ more /\ Forall (fun rq => rq_model rq = built) more)
  /\ toolFns r.1 = default [] (cfg_toolFns cfg)
  /\ maxSteps r.1 = default 20 (cfg_maxSteps cfg).
Proof.
  cbn zeta.
  set (built := {| gm_model := _; gm_systemInstruction := _; gm_tools := _ |}).
  assert (Hbuilt : geminiModel (constructor cfg) = built).
  { unfold constructor, built. cbn. destruct (cfg_tools cfg) as [[|d ds]|]; reflexivity. }
  assert (Hinv : forall ops (a : Agent) (w : World G JsValue),
             cs_model (chat a) = geminiModel a ->
             let r := session generateContent engine ops a w in
             sameSetup a r.1
             /\ exists more, sent r.2 = sent w ++ more
                             /\ Forall (fun rq => rq_model rq = geminiModel a) more).
  { clear. induction ops as [|[um ctx|] rest IH]; intros a w Ha; cbn zeta; cbn [session].
    - split; [repeat split|]. exists []. rewrite app_nil_r. auto.
    - destruct (run_keeps a w um ctx) as (Hsame & Hmodel & more & Hsent & Hall).
      assert (Hfirst : rq_model (firstRequest engine a um ctx) = geminiModel a)
        by exact Ha.
      destruct (run generateContent engine a w um ctx) as [[a1 w1] c];
        cbn [fst snd] in *.
      assert (Hend : sameSetup a a1
                     /\ exists more0, sent w1 = sent w ++ more0
                          /\ Forall (fun rq => rq_model rq = geminiModel a) more0).
      { split; [exact Hsame|]. eexists. split; [exact Hsent|].
        constructor; [exact Hfirst|]. rewrite <- Ha. exact Hall. }
      assert (Ha1 : cs_model (chat a1) = geminiModel a1).
      { destruct Hsame as (_ & _ & _ & _ & Hg). congruence. }
      assert (Hgo : let r := session generateContent engine rest a1 w1 in
                    sameSetup a r.1
                    /\ exists more, sent r.2 = sent w ++ more
                         /\ Forall (fun rq => rq_model rq = geminiModel a) more).
      { destruct (IH a1 w1 Ha1) as (Hsame' & more' & Hsent' & Hall').
        cbn zeta. split; [exact (sameSetup_trans _ _ _ Hsame Hsame')|].
        exists (firstRequest engine a um ctx :: more ++ more').
        split; [rewrite Hsent', Hsent, <- app_assoc; reflexivity|].
        constructor; [exact Hfirst|]. apply Forall_app. split.
        - rewrite <- Ha. exact Hall.
        - destruct Hsame as (_ & _ & _ & _ & Hg). rewrite <- Hg. exact Hall'. }
      destruct c; [exact Hgo | exact Hgo | exact Hend].
    - destruct (IH (reset a) w eq_refl) as (Hsame & more & Hsent & Hall).
      split; [|exists more; split; [exact Hsent | exact Hall]].
      refine (sameSetup_trans _ (reset a) _ _ Hsame). repeat split. }
  destruct (Hinv ops (constructor cfg) w eq_refl) as (Hsame & more & Hsent & Hall).
  split.
  - exists more. split; [exact Hsent|]. rewrite <- Hbuilt. exact Hall.
  - destruct Hsame as (_ & Hfns & Hmax & _). rewrite Hfns, Hmax. split; reflexivity.
Qed.

(** C1. [run] under a model that never stops asking for tools: for
    every [maxSteps >= 0], every model that on each round-trip answers
    with at least one function call, and tools that all settle, [run]
    terminates: it never hangs.  If moreover a tool that fails does so
    in a way the [catch] block can report (with an [Error], or with
    any value but [null] and [undefined] whose [message] can be
    printed), as is the case when every tool call returns, [run]
    returns, and what it returns is the failure result
    [{ success: false, error, steps }] with [steps] equal to
    [maxSteps]; [stepCount] ends at [maxSteps] too.  The only other
    way [run] ends under such a model is by throwing the [TypeError]
    of a [catch] block that could not report the failure of a tool
    the model had asked for. *)
Theorem run_step_budget (a : Agent) (w : World G JsValue) (userMessage : string)
    (context : option JsValue) :
  0 <= maxSteps a ->
  (forall g rq, exists g' ms ps,
      generateContent g rq = (g', Fulfilled ms ps) /\ functionCalls ps <> []) ->
  (forall nm fn args, getOwn nm (toolFns a) = Some fn -> fn args <> Pending) ->
  ((forall nm fn args ms err,
       getOwn nm (toolFns a) = Some fn -> fn args = Rejected ms err -> catchable engine err) ->
   exists a' w' r,
     run generateContent engine a w userMessage context = (a', w', Returned r)
     /\ success r = false
     /\ steps r = maxSteps a
     /\ r = Failure (maxStepsMessage engine (maxSteps a)) (maxSteps a)
     /\ st_lastSteps (getStats a') = maxSteps a)
  /\ (run generateContent engine a w userMessage context).2 <> Hangs
  /\ (forall err,
         (run generateContent engine a w userMessage context).2 = Threw err ->
         exists g rq g' ms response c fn ms' e,
           generateContent g rq = (g', Fulfilled ms response)
           /\ In c (functionCalls response)
           /\ getOwn (fc_name c) (toolFns a) = Some fn
           /\ fn (fc_args c) = Rejected ms' e
           /\ ~ catchable engine e
           /\ exists fault, err = JsError (typeErrorText engine fault)).
Proof.
  intros Hmax Hgw Hfns.
  assert (Hsettles : forall g rq, (generateContent g rq).2 <> Pending).
  { intros g rq. destruct (Hgw g rq) as (g' & ms & ps & -> & _). discriminate. }
  assert (Haccepts : forall g rq g' ms err, generateContent g rq <> (g', Rejected ms err)).
  { intros g rq g' ms err Hrej. destruct (Hgw g rq) as (g1 & ms1 & ps & Hok & _).
    rewrite Hok in Hrej. discriminate. }
  split; [|split].
  - intros Hcatch. exact (run_exhausts a w userMessage context Hmax Hgw Hfns Hcatch).
  - unfold run, sendMessage.
    match goal with
    | |- context [generateContent ?g ?rq] =>
        pose proof (Hsettles g rq) as Hnp;
        destruct (generateContent g rq) as [g' [ms r'|ms e|]]
    end; cbn [fst snd] in *; [|discriminate|congruence].
    apply loop_settles; assumption.
  - intros err Hthrow.
    destruct (run generateContent engine a w userMessage context) as [[a' w'] c] eqn:Hrun.
    cbn [snd] in Hthrow. subst c. unfold run, sendMessage in Hrun.
    destruct (generateContent (gw w) _) as [g' [ms r'|ms e|]] eqn:Hg; try discriminate.
    + destruct (loop_throws _ _ _ _ _ _ _ _ _ _ _ _ Hg Hrun)
        as [(g & rq & g1 & ms1 & Hrej)
           |(g2 & rq2 & g3 & ms2 & asked & c & fn & ms' & e & Hg2 & Hin & Hl & Hfn & Hc)];
        [exfalso; exact (Haccepts _ _ _ _ _ Hrej)|].
      destruct (caught_inr _ _ _ Hc) as [Hno Hfault].
      exists g2, rq2, g3, ms2, asked, c, fn, ms', e. auto 7.
    + exfalso. exact (Haccepts _ _ _ _ _ Hg).
Qed.

End BaseAgentProperties.

(** * Properties of [Promise.all] and of the [Orchestrator] *)

Section PromiseAll.
Context {A : Type}.

(** [Promise.all] is fulfilled exactly when every promise is, with the
    values in the order of the promises, at the time of the last one. *)
Lemma promiseAll_fulfilled (ps : list (Settle A)) (ms : nat) (vs : list A) :
  promiseAll ps = Fulfilled ms vs ->
  Forall2 (fun p v => outcome p = Some (inl v)) ps vs
  /\ ms = max_list_with latency ps.
Proof.
  revert ms vs. induction ps as [|p ps IH]; intros ms vs Hall; cbn in Hall.
  - injection Hall as <- <-. split; constructor.
  - destruct p as [m v|m e|]; destruct (promiseAll ps) as [n vs'|n e'|];
      try discriminate; try (destruct (m <=? n)%nat; discriminate).
    injection Hall as <- <-. destruct (IH n vs' eq_refl) as [Hvs ->].
    split; [constructor; [reflexivity|exact Hvs] | reflexivity].
Qed.

Lemma promiseAll_all_fulfilled (ps : list (Settle A)) (vs : list A) :
  Forall2 (fun p v => outcome p = Some (inl v)) ps vs ->
  promiseAll ps = Fulfilled (max_list_with latency ps) vs.
Proof.
  induction 1 as [|p v ps vs Hp _ IH]; [reflexivity|].
  cbn [promiseAll max_list_with]. rewrite IH.
  destruct p as [m x|m e|]; try discriminate.
  injection Hp as ->. reflexivity.
Qed.


End PromiseAll.

Section OrchestratorProperties.
Import Orchestrator Terms.
Context {G : Type}.
Variable generateContent : G -> Request JsValue -> G * Settle (list (Part JsValue)).
Variable engine : Engine.
Variable workers : list (string * WorkerFn).

(** A well-formed call whose worker does not fail is fulfilled with
    its result, after the time the worker takes. *)
Lemma dispatch_workerResult (c : FunctionCall JsValue) (ms : nat) (r : FunctionResponse) :
  workerResult workers c ms r -> dispatch engine workers c = Fulfilled ms r.
Proof.
  intros (nm & task & [Hw Ht] & Hcase). unfold dispatch. rewrite Hw, Ht.
  cbn [toStr]. unfold member.
  destruct Hcase as [(fn & result & Hfn & Hres & ->)|(Hnone & Hinh & -> & ->)].
  - rewrite Hfn, Hres. reflexivity.
  - rewrite Hnone, Hinh. reflexivity.
Qed.

(** A batch of such calls: all are started at once, and the batch is
    fulfilled with the results in the order of the calls when the
    slowest worker is. *)
Lemma dispatchAll_fulfilled (calls : list (FunctionCall JsValue))
    (answers : list (nat * FunctionResponse)) (w : World G JsValue) :
  Forall2 (fun c x => workerResult workers c x.1 x.2) calls answers ->
  dispatchAll engine workers calls w
  = (tick (max_list_with fst answers) (noteDispatches calls w),
     Fulfilled (max_list_with fst answers) (map snd answers)).
Proof.
  intros Hall. unfold dispatchAll.
  assert (Hps : promiseAll (map (dispatch engine workers) calls)
                = Fulfilled (max_list_with fst answers) (map snd answers)).
  { induction Hall as [|c [ms r] calls answers Hc _ IH]; [reflexivity|].
    cbn [map promiseAll max_list_with fst snd].
    rewrite (dispatch_workerResult c ms r Hc), IH. reflexivity. }
  rewrite Hps. reflexivity.
Qed.

(** A batch whose workers are all fulfilled: the results are sent, and
    the loop goes on if the model answers. *)
Lemma orch_turn_calls (chat : ChatSession JsValue) (w : World G JsValue)
    (response : list (Part JsValue)) (answers : list (nat * FunctionResponse)) :
  functionCalls response <> [] ->
  Forall2 (fun c x => workerResult workers c x.1 x.2) (functionCalls response) answers ->
  let w1 := tick (max_list_with fst answers) (noteDispatches (functionCalls response) w) in
  let s := sendMessage generateContent chat w1 (MsgParts (toToolResults (map snd answers))) in
  turn generateContent engine workers chat w response
  = (s.1.1, s.1.2,
     match s.2 with
     | Fulfilled _ response' => Continue response'
     | Rejected _ err => Done (Threw err)
     | Pending => Done Hangs
     end).
Proof.
  intros Hne Hrs. cbn zeta. unfold turn.
  destruct (functionCalls response) as [|c cs] eqn:Hcalls; [congruence|].
  rewrite (dispatchAll_fulfilled (c :: cs) answers w Hrs).
  destruct (sendMessage generateContent chat _ (MsgParts (toToolResults (map snd answers))))
    as [[c3 w3] [ms r'|ms e|]]; reflexivity.
Qed.


(** A pass through the body makes at most one request. *)
Lemma orch_turn_sent (chat : ChatSession JsValue) (w : World G JsValue)
    (response : list (Part JsValue)) :
  exists more,
    sent (turn generateContent engine workers chat w response).1.2 = sent w ++ more
    /\ (length more <= 1)%nat
    /\ (forall response',
           (turn generateContent engine workers chat w response).2 = Continue response' ->
           length more = 1%nat).
Proof.
  unfold turn, dispatchAll.
  destruct (functionCalls response) as [|c cs].
  { exists []. rewrite app_nil_r. cbn. repeat split; [lia | discriminate]. }
  destruct (promiseAll (map (dispatch engine workers) (c :: cs))) as [ms results|ms e|].
  - match goal with
    | |- context [sendMessage _ ?ch ?w1 ?m] =>
        pose proof (sendMessage_sent generateContent ch w1 m) as Hs;
        destruct (sendMessage generateContent ch w1 m) as [[c3 w3] [m' r'|m' e|]]
    end; cbn [fst snd] in *; rewrite Hs; cbn [tick noteDispatches sent];
      eexists; (split; [reflexivity|]); cbn; repeat split; auto; discriminate.
  - exists []. rewrite app_nil_r. cbn. repeat split; [lia | discriminate].
  - exists []. rewrite app_nil_r. cbn. repeat split; [lia | discriminate].
Qed.

Lemma orch_loop_sent (n : nat) :
  forall (chat : ChatSession JsValue) (w : World G JsValue) (response : list (Part JsValue)),
    exists more,
      sent (loop generateContent engine workers n chat w response).1 = sent w ++ more
      /\ (length more <= n)%nat.
Proof.
  induction n as [|n IH]; intros chat w response; cbn [loop].
  - exists []. rewrite app_nil_r. cbn. auto.
  - destruct (orch_turn_sent chat w response) as (more & Hs & Hlen & _).
    destruct (turn generateContent engine workers chat w response) as [[chat1 w1] [c|r']];
      cbn [fst snd] in *.
    + exists more. split; [exact Hs | lia].
    + destruct (IH chat1 w1 r') as (more' & Hs' & Hlen').
      exists (more ++ more'). rewrite Hs', Hs, <- app_assoc, length_app.
      split; [reflexivity | lia].
Qed.

(** X8. Each [run] of the orchestrator starts a chat of its own and is
    bounded.  Its first request is for the orchestrator's model and
    holds the user request alone, whatever ran before; and whatever
    the model and the workers do, one [run] makes at most six requests
    to the model (the first, and one after each of at most five
    batches). *)
Theorem orchestrator_run_is_fresh_and_bounded (o : Orchestrator) (w : World G JsValue)
    (userRequest : string) :
  exists more,
    sent (run generateContent engine workers o w userRequest).1
    = sent w ++ {| rq_model := model o;
                   contents := [{| role := User; parts := [textPart userRequest] |}] |}
             :: more
    /\ (length more <= 5)%nat.
Proof.
  unfold run.
  pose proof (sendMessage_sent generateContent (startChat (model o)) w
                (MsgText userRequest)) as Hs.
  destruct (sendMessage generateContent _ w _) as [[chat w1] [ms r|ms e|]];
    cbn [fst snd] in Hs.
  - destruct (orch_loop_sent 5 chat w1 r) as (more & Hmore & Hlen).
    exists more. rewrite Hmore, Hs, <- app_assoc. split; [reflexivity | exact Hlen].
  - exists []. cbn [fst snd]. rewrite Hs. split; [reflexivity | cbn; lia].
  - exists []. cbn [fst snd]. rewrite Hs. split; [reflexivity | cbn; lia].
Qed.

(** Well-formed calls for workers that are always fulfilled, or for
    names that the table neither has nor inherits: every batch is
    fulfilled. *)
Lemma workers_answer :
  (forall nm fn task, getOwn nm workers = Some fn -> exists ms r, fn task = Fulfilled ms r) ->
  forall calls : list (FunctionCall JsValue),
    Forall (fun c => exists nm task, asksWorker c nm task /\ inherited nm = false) calls ->
    exists answers, Forall2 (fun c x => workerResult workers c x.1 x.2) calls answers.
Proof.
  intros Hworkers calls Hcalls.
  induction Hcalls as [|c calls (nm & task & Hasks & Hinh) _ [answers IH]].
  - exists []. constructor.
  - destruct (getOwn nm workers) as [fn|] eqn:Hfn.
    + destruct (Hworkers _ _ task Hfn) as (ms & r & Hr).
      exists ((ms, respond (JsStr nm) "result" (JsStr r)) :: answers).
      constructor; [|exact IH]. exists nm, task. split; [exact Hasks|]. left. eauto.
    + exists ((0%nat, respond (JsStr nm) "error" (JsStr ("Unknown worker: " +:+ nm)))
              :: answers).
      constructor; [|exact IH]. exists nm, task. split; [exact Hasks|]. right. auto.
Qed.

Lemma orch_loop_exhausts (n : nat) :
  (forall g rq, exists g' ms ps,
      generateContent g rq = (g', Fulfilled ms ps)
      /\ functionCalls ps <> []
      /\ Forall (fun c => exists nm task, asksWorker c nm task /\ inherited nm = false)
                (functionCalls ps)) ->
  (forall nm fn task, getOwn nm workers = Some fn -> exists ms r, fn task = Fulfilled ms r) ->
  forall (chat : ChatSession JsValue) (w : World G JsValue) (response : list (Part JsValue)),
    functionCalls response <> [] ->
    Forall (fun c => exists nm task, asksWorker c nm task /\ inherited nm = false)
           (functionCalls response) ->
    exists w',
      loop generateContent engine workers n chat w response
      = (w', Returned "Orchestration complete")
      /\ length (sent w') = (length (sent w) + n)%nat.
Proof.
  intros Hgw Hworkers. induction n as [|n IH]; intros chat w response Hne Hwf; cbn [loop].
  - exists w. split; [reflexivity | lia].
  - destruct (workers_answer Hworkers (functionCalls response) Hwf) as [answers Hrs].
    rewrite (orch_turn_calls chat w response answers Hne Hrs).
    cbn zeta.
    match goal with
    | |- context [sendMessage _ ?ch ?w1 ?m] =>
        pose proof (sendMessage_sent generateContent ch w1 m) as Hs;
        unfold sendMessage in *;
        destruct (Hgw (gw w1) {| rq_model := cs_model ch;
                                 contents := history ch ++ [formatNewContent m] |})
          as (g' & ms & ps & Hg & Hps & Hwf')
    end.
    rewrite Hg in *. cbn [fst snd] in *.
    match goal with
    | |- context [loop _ _ _ n ?c1 ?w1 ps] =>
        destruct (IH c1 w1 ps Hps Hwf') as (w' & Hloop & Hlen)
    end.
    exists w'. split; [exact Hloop|].
    rewrite Hlen, Hs, length_app. cbn. lia.
Qed.

(** X9. The orchestrator gives up after five batches.  With a model
    that on every round-trip asks for workers, each call with a
    worker name that [Object.prototype] does not define and with a
    task text, and with workers that are always fulfilled, [run]
    returns the fixed text [Orchestration complete] after exactly six
    requests; the answer to the sixth is never looked at. *)
Theorem orchestrator_gives_up (o : Orchestrator) (w : World G JsValue)
    (userRequest : string) :
  (forall g rq, exists g' ms ps,
      generateContent g rq = (g', Fulfilled ms ps)
      /\ functionCalls ps <> []
      /\ Forall (fun c => exists nm task, asksWorker c nm task /\ inherited nm = false)
                (functionCalls ps)) ->
  (forall nm fn task, getOwn nm workers = Some fn -> exists ms r, fn task = Fulfilled ms r) ->
  exists w',
    run generateContent engine workers o w userRequest
    = (w', Returned "Orchestration complete")
    /\ length (sent w') = (length (sent w) + 6)%nat.
Proof.
  intros Hgw Hworkers. unfold run.
  pose proof (sendMessage_sent generateContent (startChat (model o)) w
                (MsgText userRequest)) as Hs.
  unfold sendMessage in *.
  destruct (Hgw (gw w) {| rq_model := cs_model (startChat (Args := JsValue) (model o));
                          contents := history (startChat (Args := JsValue) (model o))
                                        ++ [formatNewContent (MsgText userRequest)] |})
    as (g' & ms & ps & Hg & Hps & Hwf).
  rewrite Hg in *. cbn [fst snd] in *.
  match goal with
  | |- context [loop _ _ _ 5 ?c1 ?w1 ps] =>
      destruct (orch_loop_exhausts 5 Hgw Hworkers c1 w1 ps Hps Hwf) as (w' & Hloop & Hlen)
  end.
  exists w'. split; [exact Hloop|].
  rewrite Hlen, Hs, length_app. cbn. lia.
Qed.




End OrchestratorProperties.

(** * Properties of a batch of tool calls *)

Section Batches.
Context {G G' : Type}.
Variable generateContent : G -> Request JsValue -> G * Settle (list (Part JsValue)).
Variable generateContent' : G' -> Request JsValue -> G' * Settle (list (Part JsValue)).
Variable engine : Engine.
Variable workers : list (string * Orchestrator.WorkerFn).
Import Terms.

(** The [k]-th call of a schedule starts when the calls before it have
    taken their time. *)
Lemma schedule_lookup (fns : list (string * BaseAgent.ToolFn))
    (calls : list (FunctionCall JsValue)) :
  forall (t k : nat) (c : FunctionCall JsValue),
    calls !! k = Some c ->
    schedule engine fns t calls !! k
    = Some ((t + sum_list_with (callTime engine fns) (take k calls))%nat, c).
Proof.
  induction calls as [|c0 calls IH]; intros t k c Hk; [discriminate|].
  destruct k as [|k]; cbn in Hk |- *.
  - injection Hk as ->. rewrite Nat.add_0_r. reflexivity.
  - rewrite (IH _ _ _ Hk). rewrite Nat.add_assoc. reflexivity.
Qed.

Lemma schedule_length (fns : list (string * BaseAgent.ToolFn))
    (calls : list (FunctionCall JsValue)) (t : nat) :
  length (schedule engine fns t calls) = length calls.
Proof. revert t. induction calls as [|c calls IH]; intros t; cbn; [|rewrite IH]; reflexivity. Qed.







(** C2, amended. [BaseAgent.run] runs the calls of a batch one after
    the other: with tools that settle, a failing one in a way the
    [catch] block can report, each call is started when the ones
    before it have settled, and the batch takes the sum of the times
    of its calls.  Only [Orchestrator.run] starts all the calls of a
    batch at the same instant; there a batch of well-formed calls
    whose workers are all fulfilled is fulfilled when the slowest of
    them is. *)
Theorem batch_timing :
  (forall (a : BaseAgent.Agent) (w : World G JsValue) (calls : list (FunctionCall JsValue)),
      (forall nm fn args, getOwn nm (BaseAgent.toolFns a) = Some fn -> fn args <> Pending) ->
      (forall nm fn args ms err,
          getOwn nm (BaseAgent.toolFns a) = Some fn -> fn args = Rejected ms err ->
          catchable engine err) ->
      exists a' w' results,
        BaseAgent.executeCalls engine a w calls [] = (a', w', Returned results)
        /\ now w' = (now w + sum_list_with (callTime engine (BaseAgent.toolFns a)) calls)%nat
        /\ length (dispatched w') = (length (dispatched w) + length calls)%nat
        /\ (forall k c, calls !! k = Some c ->
              dispatched w' !! (length (dispatched w) + k)%nat
              = Some ((now w + sum_list_with (callTime engine (BaseAgent.toolFns a))
                                 (take k calls))%nat, c))
        /\ (forall c fn, getOwn (fc_name c) (BaseAgent.toolFns a) = Some fn ->
              callTime engine (BaseAgent.toolFns a) c = latency (fn (fc_args c))))
  /\ (forall (calls : list (FunctionCall JsValue)) (w : World G' JsValue),
         dispatched (Orchestrator.dispatchAll engine workers calls w).1
         = dispatched w ++ map (fun c => (now w, c)) calls)
  /\ (forall (calls : list (FunctionCall JsValue)) (w : World G' JsValue)
             (answers : list (nat * FunctionResponse)),
         Forall2 (fun c x => workerResult workers c x.1 x.2) calls answers ->
         (Orchestrator.dispatchAll engine workers calls w).2
         = Fulfilled (max_list_with fst answers) (map snd answers)
         /\ now (Orchestrator.dispatchAll engine workers calls w).1
            = (now w + max_list_with fst answers)%nat).
Proof.
  split; [|split].
  - intros a w calls Hfns Hcatch.
    destruct (invoke_settles engine _ Hfns Hcatch calls) as [rs Hrs].
    do 2 eexists. exists rs.
    split; [apply (executeCalls_settled engine calls a w [] rs Hrs)|].
    cbn [mkWorld now dispatched].
    split; [reflexivity|].
    split; [rewrite length_app, schedule_length; reflexivity|].
    split.
    + intros k c Hk. rewrite lookup_app_r by lia.
      replace (length (dispatched w) + k - length (dispatched w))%nat with k by lia.
      apply schedule_lookup. exact Hk.
    + intros c fn Hl. unfold callTime, BaseAgent.invoke, member. rewrite Hl. reflexivity.
  - intros calls w. reflexivity.
  - intros calls w answers Hall.
    rewrite (dispatchAll_fulfilled engine workers calls answers w Hall).
    split; reflexivity.
Qed.

End Batches.

(** * Properties of the debate *)

Section DebateProperties.
Import Debate Terms.
Context {G : Type}.
Variable generateContent : G -> GenerativeModel -> string -> G * Settle string.

Lemma append_assoc (a b c : string) : (a +:+ b) +:+ c = a +:+ b +:+ c.
Proof.
  induction a as [|x a IH]; [reflexivity|].
  change (String x ((a +:+ b) +:+ c) = String x (a +:+ b +:+ c)).
  f_equal. exact IH.
Qed.

(** The prompt of a side that is given an opponent argument contains
    that argument as it is. *)
Lemma agentPrompt_includes (side topic context arg : string) :
  includes arg (agentPrompt side topic context (Some arg)).
Proof.
  unfold agentPrompt. destruct (String.eqb_spec arg "") as [->|_].
  - exists "", (openingPrompt side topic context). reflexivity.
  - exists ("Topic: " +:+ dq +:+ topic +:+ dq +:+ nl +:+ "Context: " +:+ context +:+ nl +:+ nl
            +:+ "Your opponent said:" +:+ nl +:+ dq),
           (dq +:+ nl +:+ nl +:+ "Counter their argument AND strengthen your position.").
    unfold rebuttalPrompt. rewrite !append_assoc. reflexivity.
Qed.

Hypothesis answers : forall g m p, exists g' ms t, generateContent g m p = (g', Fulfilled ms t).

Lemma llm_answers (w : World G) (system prompt : string) :
  exists g' ms t,
    llm generateContent w system prompt
    = ({| gw := g';
          asked := asked w ++ [{| ex_system := system; ex_prompt := prompt;
                                  ex_reply := Fulfilled ms t |}] |},
       Fulfilled ms t).
Proof.
  unfold llm. destruct (answers (gw w)
    {| gm_model := "gemini-1.5-flash"; gm_systemInstruction := system; gm_tools := None |}
    prompt) as (g' & ms & t & ->).
  eauto.
Qed.

(** With a model that answers every generation, the loop runs all its
    rounds, two generations per round, wired as [wired] says. *)
Lemma debateLoop_runs (topic context : string) (n : nat) :
  forall (i : Z) (w : World G) (lastPro lastCon : option string) (rs0 : list Round),
    1 <= i ->
    exists w' rs exs,
      debateLoop generateContent n i w topic context lastPro lastCon rs0
      = (w', Returned (rs0 ++ rs))
      /\ length rs = n
      /\ asked w' = asked w ++ exs
      /\ wired topic context (1 <? i) lastPro lastCon rs exs.
Proof.
  induction n as [|n IH]; intros i w lastPro lastCon rs0 Hi; cbn [debateLoop].
  - exists w, [], []. rewrite !app_nil_r. cbn. auto.
  - unfold proAgent, conAgent.
    destruct (llm_answers w proSystem
                (agentPrompt "FOR" topic context (if 1 <? i then lastCon else None)))
      as (g1 & m1 & p & ->).
    destruct (llm_answers
                {| gw := g1;
                   asked := asked w ++ [{| ex_system := proSystem;
                                           ex_prompt := agentPrompt "FOR" topic context
                                                          (if 1 <? i then lastCon else None);
                                           ex_reply := Fulfilled m1 p |}] |}
                conSystem
                (agentPrompt "AGAINST" topic context (if 1 <? i then lastPro else None)))
      as (g2 & m2 & c & ->).
    cbn [promiseAll2 asked].
    match goal with
    | |- context [debateLoop _ n (i + 1) ?w2 topic context ?lp ?lc ?rs1] =>
        destruct (IH (i + 1) w2 lp lc rs1) as (w' & rs & exs & Hloop & Hlen & Hasked & Hw);
          [lia|]
    end.
    rewrite Hloop. cbn [asked] in Hasked.
    exists w', ({| pro := p; con := c |} :: rs). eexists (_ :: _ :: exs).
    split; [rewrite <- app_assoc; reflexivity|].
    split; [cbn; lia|].
    split; [rewrite Hasked, <- !app_assoc; reflexivity|].
    replace (1 <? i + 1) with true in Hw by (symmetry; apply Z.ltb_lt; lia).
    cbn. auto 10.
Qed.

Lemma wired_length (topic context : string) (rs : list Round) :
  forall (rebut : bool) (lastPro lastCon : option string) (exs : list Exchange),
    wired topic context rebut lastPro lastCon rs exs ->
    length exs = (2 * length rs)%nat.
Proof.
  induction rs as [|r rs IH]; intros rebut lastPro lastCon exs Hw.
  - destruct exs; [reflexivity | destruct Hw].
  - destruct exs as [|pe [|ce exs]]; [destruct Hw | destruct Hw |].
    destruct Hw as (_ & _ & _ & _ & _ & _ & Hw). apply IH in Hw. cbn. lia.
Qed.

(** The two generations of round [i] (counted from 0): each side is
    prompted with the other side's text of round [i - 1]. *)
Lemma wired_lookup (topic context : string) (rs : list Round) :
  forall (rebut : bool) (lastPro lastCon : option string) (exs : list Exchange),
    wired topic context rebut lastPro lastCon rs exs ->
    forall (i : nat) (r : Round),
      rs !! i = Some r ->
      exists pe ce,
        exs !! (2 * i)%nat = Some pe /\ exs !! (2 * i + 1)%nat = Some ce
        /\ ex_system pe = proSystem /\ ex_system ce = conSystem
        /\ outcome (ex_reply pe) = Some (inl (pro r))
        /\ outcome (ex_reply ce) = Some (inl (con r))
        /\ ex_prompt pe
           = agentPrompt "FOR" topic context
               (match i with
                | O => if rebut then lastCon else None
                | S j => con <$> rs !! j
                end)
        /\ ex_prompt ce
           = agentPrompt "AGAINST" topic context
               (match i with
                | O => if rebut then lastPro else None
                | S j => pro <$> rs !! j
                end).
Proof.
  induction rs as [|r0 rs IH]; intros rebut lastPro lastCon exs Hw i r Hi; [discriminate|].
  destruct exs as [|pe [|ce exs]]; [destruct Hw | destruct Hw |].
  destruct Hw as (Hps & Hpp & Hpr & Hcs & Hcp & Hcr & Hw).
  destruct i as [|i].
  - injection Hi as <-. exists pe, ce. cbn. auto 10.
  - cbn in Hi. destruct (IH _ _ _ _ Hw i r Hi)
      as (pe' & ce' & Hpe & Hce & Hs1 & Hs2 & Ho1 & Ho2 & Hp1 & Hp2).
    exists pe', ce'.
    replace (2 * S i)%nat with (S (S (2 * i))) by lia.
    replace (S (S (2 * i)) + 1)%nat with (S (S (2 * i + 1))) by lia.
    cbn [lookup list_lookup].
    repeat (split; [assumption|]).
    destruct i as [|j]; cbn in *; auto.
Qed.


(** C8. For every requested number of rounds [R >= 1] and a model
    that answers every generation, [runDebate] returns after exactly
    [R] rounds, having asked for [2 * R] debater generations and then
    one judge generation.  In round 1 each side gets its opening
    prompt, made of the topic and the context only.  In every later
    round the pro side's prompt contains the con side's text of the
    round before as it is, and the con side's prompt contains the pro
    side's.  The judge's prompt ends with the transcript: for each
    round in order, its number, the pro text and the con text. *)
Theorem debate_runs_all_rounds (w : World G) (topic context : string) (R : Z) :
  1 <= R ->
  exists w' rs v exs je,
    runDebate generateContent w
      {| dc_topic := topic; dc_context := context; dc_rounds := Some R |}
    = (w', Returned {| Debate.topic := topic; rounds := rs; verdict := v |})
    /\ length rs = Z.to_nat R
    /\ asked w' = asked w ++ exs ++ [je]
    /\ length exs = (2 * Z.to_nat R)%nat
    /\ (forall (i : nat) (r : Round),
           rs !! i = Some r ->
           exists pe ce,
             exs !! (2 * i)%nat = Some pe /\ exs !! (2 * i + 1)%nat = Some ce
             /\ ex_system pe = proSystem /\ ex_system ce = conSystem
             /\ outcome (ex_reply pe) = Some (inl (pro r))
             /\ outcome (ex_reply ce) = Some (inl (con r))
             /\ match i with
                | O =>
                    ex_prompt pe = openingPrompt "FOR" topic context
                    /\ ex_prompt ce = openingPrompt "AGAINST" topic context
                | S j =>
                    exists prev,
                      rs !! j = Some prev
                      /\ ex_prompt pe = agentPrompt "FOR" topic context (Some (con prev))
                      /\ ex_prompt ce = agentPrompt "AGAINST" topic context (Some (pro prev))
                      /\ includes (con prev) (ex_prompt pe)
                      /\ includes (pro prev) (ex_prompt ce)
                end)
    /\ ex_system je = judgeSystem
    /\ outcome (ex_reply je) = Some (inl v)
    /\ ex_prompt je
       = "Topic: " +:+ dq +:+ topic +:+ dq +:+ nl +:+ "Context: " +:+ context +:+ nl +:+ nl
         +:+ "Debate Transcript:" +:+ nl
         +:+ String.concat (nl +:+ nl)
               (imap (fun i r => "=== Round " +:+ pretty (i + 1)%nat +:+ " ===" +:+ nl
                                 +:+ "FOR: " +:+ pro r +:+ nl +:+ nl
                                 +:+ "AGAINST: " +:+ con r) rs).
Proof.
  intros HR. unfold runDebate. cbn [dc_rounds dc_topic dc_context default from_option id].
  replace (R - 1 + 1) with R by lia.
  destruct (debateLoop_runs topic context (Z.to_nat R) 1 w None None [])
    as (w1 & rs & exs & Hloop & Hlen & Hasked & Hw); [lia|].
  rewrite Hloop. cbn [app]. unfold judgeAgent.
  destruct (llm_answers w1 judgeSystem (judgePrompt topic rs context))
    as (g2 & ms & v & ->).
  eexists _, rs, v, exs, _.
  split; [reflexivity|]. split; [exact Hlen|].
  split; [cbn [asked]; rewrite Hasked, <- app_assoc; reflexivity|].
  split; [rewrite (wired_length _ _ _ _ _ _ _ Hw), Hlen; reflexivity|].
  split; [|repeat split; reflexivity].
  intros i r Hi.
  destruct (wired_lookup _ _ _ _ _ _ _ Hw i r Hi)
    as (pe & ce & Hpe & Hce & Hs1 & Hs2 & Ho1 & Ho2 & Hp1 & Hp2).
  exists pe, ce. do 6 (split; [assumption|]).
  destruct i as [|j].
  - cbn in Hp1, Hp2. auto.
  - destruct (lookup_lt_is_Some_2 rs j) as [prev Hprev].
    { apply lookup_lt_Some in Hi. lia. }
    rewrite Hprev in Hp1, Hp2.
    change (con <$> Some prev) with (Some (con prev)) in Hp1.
    change (pro <$> Some prev) with (Some (pro prev)) in Hp2.
    exists prev. rewrite Hp1, Hp2.
    repeat split; auto using agentPrompt_includes.
Qed.

End DebateProperties.

(** * Further properties of the debate *)

Section Includes.

Lemma append_nil_r (s : string) : s +:+ "" = s.
Proof.
  induction s as [|x s IH]; [reflexivity|].
  change (String x (s +:+ "") = String x s). f_equal. exact IH.
Qed.

Lemma includes_here (t post : string) : includes t (t +:+ post).
Proof. exists "", post. reflexivity. Qed.

Lemma includes_self (t : string) : includes t t.
Proof. exists "", "". rewrite append_nil_r. reflexivity. Qed.

Lemma includes_after (p t s : string) : includes t s -> includes t (p +:+ s).
Proof.
  intros (pre & post & ->). exists (p +:+ pre), post. rewrite append_assoc. reflexivity.
Qed.

Lemma includes_before (q t s : string) : includes t s -> includes t (s +:+ q).
Proof.
  intros (pre & post & ->). exists pre, (post +:+ q). rewrite !append_assoc. reflexivity.
Qed.

(** [l.join(sep)] contains every element of [l]. *)
Lemma concat_includes (sep x : string) (l : list string) :
  In x l -> includes x (String.concat sep l).
Proof.
  induction l as [|y l IH]; intros Hin; [destruct Hin|].
  destruct l as [|z l].
  - destruct Hin as [->|[]]. apply includes_self.
  - change (String.concat sep (y :: z :: l)) with (y +:+ sep +:+ String.concat sep (z :: l)).
    destruct Hin as [->|Hin].
    + apply includes_here.
    + apply includes_after, includes_after, IH, Hin.
Qed.

End Includes.

Section DebateLedger.
Import Debate Terms.
Context {G : Type}.
Variable generateContent : G -> GenerativeModel -> string -> G * Settle string.

Lemma llm_asked (w : World G) (system prompt : string) :
  asked (llm generateContent w system prompt).1
  = asked w ++ [{| ex_system := system; ex_prompt := prompt;
                   ex_reply := (llm generateContent w system prompt).2 |}].
Proof. unfold llm. destruct (generateContent _ _ _) as [g' reply]. reflexivity. Qed.

(** Every way through the rounds: the generations come in pairs, a pro
    one and a con one; the loop returns after all its rounds, every
    generation fulfilled; it throws in the first round in which a
    generation was rejected, with the error of a rejected generation
    of that round. *)
Lemma debateLoop_trace (topic context : string) (n : nat) :
  forall (i : Z) (w : World G) (lastPro lastCon : option string) (rs0 : list Round),
    exists exs (j : nat),
      asked (debateLoop generateContent n i w topic context lastPro lastCon rs0).1
      = asked w ++ exs
      /\ length exs = (2 * j)%nat /\ (j <= n)%nat
      /\ Forall (fun e => ex_system e = proSystem \/ ex_system e = conSystem) exs
      /\ match (debateLoop generateContent n i w topic context lastPro lastCon rs0).2 with
         | Returned rs =>
             j = n /\ (exists new, rs = rs0 ++ new /\ length new = n)
             /\ Forall (fun e => exists ms t, ex_reply e = Fulfilled ms t) exs
         | Threw err =>
             (1 <= j)%nat
             /\ Forall (fun e => exists ms t, ex_reply e = Fulfilled ms t)
                       (take (2 * (j - 1)) exs)
             /\ exists e ms, In e (drop (2 * (j - 1)) exs) /\ ex_reply e = Rejected ms err
         | Hangs => (1 <= j)%nat
         end.
Proof.
  induction n as [|n IH]; intros i w lastPro lastCon rs0; cbn [debateLoop].
  - exists [], 0%nat. rewrite app_nil_r. cbn. repeat split; auto.
    exists []. rewrite app_nil_r. auto.
  - unfold proAgent, conAgent.
    pose proof (llm_asked w proSystem
                  (agentPrompt "FOR" topic context (if 1 <? i then lastCon else None))) as Hp.
    destruct (llm generateContent w proSystem _) as [w1 p]. cbn [fst snd] in Hp.
    pose proof (llm_asked w1 conSystem
                  (agentPrompt "AGAINST" topic context (if 1 <? i then lastPro else None))) as Hc.
    destruct (llm generateContent w1 conSystem _) as [w2 c]. cbn [fst snd] in Hc.
    rewrite Hp, <- app_assoc in Hc. cbn [app] in Hc.
    assert (Hsys : Forall (fun e => ex_system e = proSystem \/ ex_system e = conSystem)
                     [{| ex_system := proSystem;
                         ex_prompt := agentPrompt "FOR" topic context
                                        (if 1 <? i then lastCon else None);
                         ex_reply := p |};
                      {| ex_system := conSystem;
                         ex_prompt := agentPrompt "AGAINST" topic context
                                        (if 1 <? i then lastPro else None);
                         ex_reply := c |}]).
    { constructor; [left; reflexivity|]. constructor; [right; reflexivity|]. constructor. }
    destruct p as [m x|m e|]; destruct c as [m' y|m' e'|]; cbn [promiseAll2];
      try match goal with
          | |- context [if (?x <=? ?y)%nat then _ else _] => destruct (x <=? y)%nat
          end;
      try (eexists _, 1%nat; cbn [fst snd]; rewrite Hc;
           split; [reflexivity|]; split; [reflexivity|]; split; [lia|];
           split; [exact Hsys|];
           first [ lia
                 | split; [lia|]; split; [constructor|];
                   first [ solve [eexists _, _; split; [left; reflexivity | reflexivity]]
                         | solve [eexists _, _; split; [right; left; reflexivity
                                                       | reflexivity]] ] ]).
    match goal with
    | |- context [debateLoop _ n ?i1 w2 topic context ?lp ?lc ?rs1] =>
        destruct (IH i1 w2 lp lc rs1) as (exs & j & Hasked & Hlen & Hj & Hall & Hres)
    end.
    eexists (_ :: _ :: exs), (S j). rewrite Hasked, Hc.
    split; [rewrite <- app_assoc; reflexivity|].
    split; [cbn; lia|]. split; [lia|].
    split; [inversion Hsys as [|? ? ? Hs2]; inversion Hs2; subst; repeat constructor; assumption|].
    destruct (debateLoop generateContent n _ w2 topic context _ _ _).2 as [rs|err|].
    + destruct Hres as (-> & (new & -> & Hnew) & Hful). split; [reflexivity|].
      split; [exists ({| pro := x; con := y |} :: new); rewrite <- app_assoc; cbn; auto|].
      constructor; [eauto|]. constructor; [eauto|]. exact Hful.
    + destruct Hres as (Hj1 & Hful & e & ms & Hin & He). split; [lia|].
      replace (2 * (S j - 1))%nat with (S (S (2 * (j - 1)))) by lia.
      cbn [take firstn drop skipn].
      split; [constructor; [eauto|]; constructor; [eauto|]; exact Hful|].
      exists e, ms. split; [exact Hin | exact He].
    + lia.
Qed.

(** X11. A debate of zero rounds.  When the requested number of
    rounds is zero or negative no debater is asked at all: the only
    generation is the judge's, on a transcript that is empty, and the
    result has no rounds. *)
Theorem debate_without_rounds (w : World G) (topic context : string) (R : Z) :
  R <= 0 ->
  let r := runDebate generateContent w
             {| dc_topic := topic; dc_context := context; dc_rounds := Some R |} in
  exists je,
    asked r.1 = asked w ++ [je]
    /\ ex_system je = judgeSystem
    /\ ex_prompt je
       = "Topic: " +:+ dq +:+ topic +:+ dq +:+ nl +:+ "Context: " +:+ context +:+ nl +:+ nl
         +:+ "Debate Transcript:" +:+ nl
    /\ r.2 = match ex_reply je with
             | Fulfilled _ v =>
                 Returned {| Debate.topic := topic; rounds := []; verdict := v |}
             | Rejected _ err => Threw err
             | Pending => Hangs
             end.
Proof.
  intros HR. cbn zeta. unfold runDebate.
  cbn [dc_rounds dc_topic dc_context default from_option id].
  replace (Z.to_nat (R - 1 + 1)) with 0%nat by lia.
  cbn [debateLoop]. unfold judgeAgent.
  pose proof (llm_asked w judgeSystem (judgePrompt topic [] context)) as Hj.
  destruct (llm generateContent w judgeSystem (judgePrompt topic [] context)) as [w2 reply].
  cbn [fst snd] in Hj.
  exists {| ex_system := judgeSystem; ex_prompt := judgePrompt topic [] context;
            ex_reply := reply |}.
  destruct reply as [ms v|ms e|]; cbn [fst snd ex_reply ex_system ex_prompt];
    (split; [exact Hj|]); (split; [reflexivity|]); split; reflexivity.
Qed.

(** X12. How a debate fails.  If [runDebate] throws, the error is that
    of a generation which was rejected.  Either this happened in some
    round [j]: then both sides of every round up to [j] had been
    started (the con side too when the pro side of round [j] failed),
    every generation of the rounds before [j] was fulfilled, the
    rejected generation is one of the two of round [j], and the judge
    was never asked; or all the debater generations of all rounds were
    fulfilled and the judge's own generation was rejected. *)
Theorem debate_failure (w w' : World G) (cfg : DebateConfig) (err : Thrown) :
  runDebate generateContent w cfg = (w', Threw err) ->
  exists exs,
    asked w' = asked w ++ exs
    /\ ((exists j : nat,
            (1 <= j <= Z.to_nat (default 2%Z (dc_rounds cfg)))%nat
            /\ length exs = (2 * j)%nat
            /\ Forall (fun e => ex_system e = proSystem \/ ex_system e = conSystem) exs
            /\ Forall (fun e => exists ms t, ex_reply e = Fulfilled ms t)
                      (take (2 * (j - 1)) exs)
            /\ exists e ms, In e (drop (2 * (j - 1)) exs) /\ ex_reply e = Rejected ms err)
        \/ (exists pre je ms,
               exs = pre ++ [je]
               /\ length pre = (2 * Z.to_nat (default 2%Z (dc_rounds cfg)))%nat
               /\ Forall (fun e => ex_system e = proSystem \/ ex_system e = conSystem) pre
               /\ Forall (fun e => exists ms t, ex_reply e = Fulfilled ms t) pre
               /\ ex_system je = judgeSystem
               /\ ex_reply je = Rejected ms err)).
Proof.
  unfold runDebate. intros Hrun.
  set (R := default 2 (dc_rounds cfg)) in *.
  replace (R - 1 + 1) with R in Hrun by lia.
  destruct (debateLoop_trace (dc_topic cfg) (dc_context cfg) (Z.to_nat R) 1 w None None [])
    as (exs & j & Hasked & Hlen & Hj & Hsys & Hres).
  destruct (debateLoop generateContent (Z.to_nat R) 1 w (dc_topic cfg) (dc_context cfg)
              None None []) as [w1 [rs|e|]]; cbn [fst snd] in *.
  - unfold judgeAgent in Hrun.
    pose proof (llm_asked w1 judgeSystem (judgePrompt (dc_topic cfg) rs (dc_context cfg))) as Hjudge.
    destruct (llm generateContent w1 judgeSystem _) as [w2 [ms v|ms e|]];
      cbn [fst snd] in Hjudge; try discriminate.
    injection Hrun as <- <-.
    destruct Hres as (-> & _ & Hful).
    eexists (exs ++ [_]). split; [rewrite Hjudge, Hasked, <- app_assoc; reflexivity|].
    right. do 3 eexists. split; [reflexivity|]. split; [exact Hlen|].
    split; [exact Hsys|]. split; [exact Hful|]. split; reflexivity.
  - injection Hrun as <- <-. destruct Hres as (Hj1 & Hful & Hrej).
    exists exs. split; [exact Hasked|].
    left. exists j. repeat split; try assumption.
  - discriminate.
Qed.

Hypothesis answers : forall g m p, exists g' ms t, generateContent g m p = (g', Fulfilled ms t).

(** X13. An empty argument is no argument.  In a debate that runs to
    its end, the prompt of a side in a later round depends on the
    other side's text of the round before: if that text is empty the
    side gets its opening prompt again, as in round 1; otherwise it
    gets the rebuttal prompt around that text, and this prompt is the
    same for both sides. *)
Theorem debate_empty_argument (w : World G) (cfg : DebateConfig) :
  exists w' res exs je,
    runDebate generateContent w cfg = (w', Returned res)
    /\ asked w' = asked w ++ exs ++ [je]
    /\ forall (j : nat) (prev : Round),
         rounds res !! j = Some prev ->
         (S j < length (rounds res))%nat ->
         exists pe ce,
           exs !! (2 * S j)%nat = Some pe /\ exs !! (2 * S j + 1)%nat = Some ce
           /\ ex_prompt pe
              = (if String.eqb (con prev) ""
                 then openingPrompt "FOR" (dc_topic cfg) (dc_context cfg)
                 else rebuttalPrompt (dc_topic cfg) (dc_context cfg) (con prev))
           /\ ex_prompt ce
              = (if String.eqb (pro prev) ""
                 then openingPrompt "AGAINST" (dc_topic cfg) (dc_context cfg)
                 else rebuttalPrompt (dc_topic cfg) (dc_context cfg) (pro prev)).
Proof.
  unfold runDebate.
  destruct (debateLoop_runs generateContent answers (dc_topic cfg) (dc_context cfg)
              (Z.to_nat (default 2 (dc_rounds cfg) - 1 + 1)) 1 w None None [])
    as (w1 & rs & exs & Hloop & Hlen & Hasked & Hw); [lia|].
  rewrite Hloop. cbn [app]. unfold judgeAgent.
  destruct (llm_answers generateContent answers w1 judgeSystem
              (judgePrompt (dc_topic cfg) rs (dc_context cfg)))
    as (g2 & ms & v & ->).
  eexists _, _, exs, _. split; [reflexivity|].
  split; [cbn [asked]; rewrite Hasked, <- app_assoc; reflexivity|].
  cbn [rounds]. intros j prev Hprev Hnext.
  destruct (lookup_lt_is_Some_2 rs (S j) Hnext) as [r Hr].
  destruct (wired_lookup _ _ _ _ _ _ _ Hw (S j) r Hr)
    as (pe & ce & Hpe & Hce & _ & _ & _ & _ & Hp1 & Hp2).
  rewrite Hprev in Hp1, Hp2.
  exists pe, ce. split; [exact Hpe|]. split; [exact Hce|].
  split; [exact Hp1 | exact Hp2].
Qed.

(** X14. Nothing is lost on the way to the judge.  In a debate that
    runs to its end (as many rounds as requested, two when the number
    is omitted), the judge's prompt contains the topic, the context,
    and the pro text and the con text of every round, each as it
    is. *)
Theorem judge_sees_every_round (w : World G) (cfg : DebateConfig) :
  exists w' res exs je,
    runDebate generateContent w cfg = (w', Returned res)
    /\ length (rounds res) = Z.to_nat (default 2%Z (dc_rounds cfg))
    /\ asked w' = asked w ++ exs ++ [je]
    /\ ex_system je = judgeSystem
    /\ includes (dc_topic cfg) (ex_prompt je)
    /\ includes (dc_context cfg) (ex_prompt je)
    /\ forall r : Round,
         In r (rounds res) ->
         includes (pro r) (ex_prompt je) /\ includes (con r) (ex_prompt je).
Proof.
  unfold runDebate.
  destruct (debateLoop_runs generateContent answers (dc_topic cfg) (dc_context cfg)
              (Z.to_nat (default 2 (dc_rounds cfg) - 1 + 1)) 1 w None None [])
    as (w1 & rs & exs & Hloop & Hlen & Hasked & Hw); [lia|].
  rewrite Hloop. cbn [app]. unfold judgeAgent.
  destruct (llm_answers generateContent answers w1 judgeSystem
              (judgePrompt (dc_topic cfg) rs (dc_context cfg)))
    as (g2 & ms & v & ->).
  eexists _, _, exs, _. split; [reflexivity|].
  cbn [rounds asked ex_system ex_prompt].
  split; [rewrite Hlen; f_equal; lia|].
  split; [rewrite Hasked, <- app_assoc; reflexivity|].
  split; [reflexivity|].
  unfold judgePrompt.
  split; [do 2 apply includes_after; apply includes_here|].
  split; [do 6 apply includes_after; apply includes_here|].
  intros r Hin.
  apply list_elem_of_In in Hin. apply list_elem_of_lookup in Hin as [i Hi].
  assert (Hblock : In (roundBlock i r) (imap roundBlock rs)).
  { apply list_elem_of_In. apply list_elem_of_lookup. exists i.
    rewrite list_lookup_imap, Hi. reflexivity. }
  apply (concat_includes (nl +:+ nl)) in Hblock. fold (transcript rs) in Hblock.
  destruct Hblock as (pre & post & Ht).
  split.
  - do 11 apply includes_after. rewrite Ht.
    apply includes_after. apply includes_before. unfold roundBlock.
    do 5 apply includes_after. apply includes_here.
  - do 11 apply includes_after. rewrite Ht.
    apply includes_after. apply includes_before. unfold roundBlock.
    do 9 apply includes_after. apply includes_self.
Qed.

End DebateLedger.

(** * The statements on the test doubles *)

Section OnStubs.
Import Terms.

Lemma stub_tools_settle (nm : string) (fn : BaseAgent.ToolFn) (args : JsValue) :
  getOwn nm Stub.tools = Some fn -> fn args <> Pending.
Proof.
  unfold Stub.tools. cbn [getOwn].
  repeat (destruct (String.eqb _ nm); [intros [= <-]; discriminate|]).
  discriminate.
Qed.

(** The one stub tool that fails throws an [Error]. *)
Lemma stub_tools_catchable (nm : string) (fn : BaseAgent.ToolFn) (args : JsValue)
    (ms : nat) (err : Thrown) :
  getOwn nm Stub.tools = Some fn -> fn args = Rejected ms err -> catchable Stub.engine err.
Proof.
  unfold Stub.tools. cbn [getOwn].
  repeat (destruct (String.eqb _ nm);
          [intros [= <-]; try discriminate; intros [= _ <-];
           exists (JsStr "kaput"), "kaput"; split; reflexivity|]).
  discriminate.
Qed.

Lemma probe_tools_settle (nm : string) (fn : BaseAgent.ToolFn) (args : JsValue) :
  getOwn nm Probe.tools = Some fn -> fn args <> Pending.
Proof.
  unfold Probe.tools, Stub.tools. cbn [app getOwn].
  repeat (destruct (String.eqb _ nm); [intros [= <-]; discriminate|]).
  discriminate.
Qed.

(** The scripted model plays its script back and then says [done]. *)
Lemma scripted_replies (script : list (list (Part JsValue))) :
  replies Stub.scripted script (script ++ [[textPart "done"]]).
Proof.
  induction script as [|r rest IH]; cbn.
  - intros rq. exists [], 5%nat. split; [reflexivity | exact I].
  - intros rq. exists rest, 5%nat. split; [reflexivity | exact IH].
Qed.

(** C1 on a model that asks for tool [A] for ever, with a budget of
    3; and on a model that asks for ever for the tool [nil], which
    rejects with [null]. *)
Lemma run_step_budget_witness :
  0 <= 3
  /\ (exists a' w' r,
         BaseAgent.run Stub.alwaysCalls Stub.engine (Stub.agent 3) (Stub.world tt) "hi" None
         = (a', w', Returned r)
         /\ BaseAgent.success r = false
         /\ BaseAgent.steps r = 3
         /\ r = BaseAgent.Failure "Max steps (3) reached" 3
         /\ BaseAgent.st_lastSteps (BaseAgent.getStats a') = 3)
  /\ (BaseAgent.run Stub.alwaysCalls Stub.engine (Stub.agent 3) (Stub.world tt) "hi" None).2
     <> Hangs
  /\ (let asksNil := fun (_ : unit) (_ : Request JsValue) =>
                       (tt, Fulfilled 10 [callPart "nil" (JsObj [])]) in
      let r := BaseAgent.run asksNil Stub.engine (Probe.agent 3) (Stub.world tt) "hi" None in
      r.2 = Threw (JsError "Cannot read properties of null (reading 'message')")
      /\ exists g rq g' ms response c fn ms' e,
          asksNil g rq = (g', Fulfilled ms response)
          /\ In c (functionCalls response)
          /\ getOwn (fc_name c) Probe.tools = Some fn
          /\ fn (fc_args c) = Rejected ms' e
          /\ ~ catchable Stub.engine e
          /\ exists fault,
              JsError "Cannot read properties of null (reading 'message')"
              = JsError (typeErrorText Stub.engine fault)).
Proof.
  split; [lia|].
  destruct (run_step_budget Stub.alwaysCalls Stub.engine (Stub.agent 3) (Stub.world tt)
              "hi" None)
    as (Hreturns & Hsettles & _).
  - cbn. lia.
  - intros g rq. exists tt, 10%nat, [callPart "A" (JsObj [])].
    split; [reflexivity | discriminate].
  - exact stub_tools_settle.
  - split; [exact (Hreturns stub_tools_catchable)|]. split; [exact Hsettles|].
    intros asksNil r. split; [vm_compute; reflexivity|].
    destruct (run_step_budget asksNil Stub.engine (Probe.agent 3) (Stub.world tt) "hi" None)
      as (_ & _ & Hthrows).
    + cbn. lia.
    + intros g rq. exists tt, 10%nat, [callPart "nil" (JsObj [])].
      split; [reflexivity | discriminate].
    + exact probe_tools_settle.
    + apply Hthrows. vm_compute. reflexivity.
Defined.

(** [Object.keys] lists the keys that are array indices first, in
    ascending order, and then the other keys in insertion order. *)
Lemma keys_of_a_table :
  keys [("b", 1); ("10", 2); ("a", 3); ("2", 4); ("01", 5)] = ["2"; "10"; "b"; "a"; "01"].
Proof. reflexivity. Qed.

(** The two worker calls of the batches below, and what their workers
    answer: [math_agent] after 200 ms, [code_agent] after 100 ms. *)
Lemma stub_workers_answer :
  Forall2 (fun c x => workerResult Stub.workers c x.1 x.2)
    (functionCalls [Stub.workerCall "math_agent" "2+2"; Stub.workerCall "code_agent" "sort"])
    [(200%nat, Orchestrator.respond (JsStr "math_agent") "result" (JsStr "4"));
     (100%nat, Orchestrator.respond (JsStr "code_agent") "result" (JsStr "code for sort"))].
Proof.
  constructor; [|constructor; [|constructor]].
  - exists "math_agent", "2+2". split; [split; reflexivity|].
    left. eexists _, "4". split; [reflexivity|]. split; reflexivity.
  - exists "code_agent", "sort". split; [split; reflexivity|].
    left. eexists _, "code for sort". split; [reflexivity|]. split; reflexivity.
Qed.

(** C2 as stated fails in [BaseAgent.run]: a batch of tool [A]
    (100 ms) and tool [C] (50 ms) takes 150 ms, not the 100 ms of the
    slower of the two, and [C] is started only when [A] has settled. *)
Lemma batch_time_is_sum_not_max :
  let calls := [Stub.call "A"; Stub.call "C"] in
  let r := BaseAgent.executeCalls Stub.engine (Stub.agent 20) (Stub.world (G := unit) tt)
             calls [] in
  r.2 = Returned [responsePart "A" (JsStr "resultA"); responsePart "C" (JsStr "resultC")]
  /\ max_list_with (callTime Stub.engine Stub.tools) calls = 100%nat
  /\ (now r.1.2 - 1000)%nat = 150%nat
  /\ dispatched r.1.2 = [(1000%nat, Stub.call "A"); (1100%nat, Stub.call "C")]
  /\ (now r.1.2 - 1000)%nat <> max_list_with (callTime Stub.engine Stub.tools) calls.
Proof. cbn. repeat split. discriminate. Qed.

(** C2, amended, on the batch of [A] and [C] in [BaseAgent.run], and
    on a batch of [math_agent] (200 ms) and [code_agent] (100 ms) in
    [Orchestrator.run]: both workers are started at time 1000 and the
    batch is fulfilled at time 1200. *)
Lemma batch_timing_witness :
  (let calls := [Stub.call "A"; Stub.call "C"] in
   exists a' w' results,
     BaseAgent.executeCalls Stub.engine (Stub.agent 20) (Stub.world (G := unit) tt) calls []
     = (a', w', Returned results)
     /\ now w' = 1150%nat
     /\ length (dispatched w') = 2%nat
     /\ dispatched w' !! 0%nat = Some (1000%nat, Stub.call "A")
     /\ dispatched w' !! 1%nat = Some (1100%nat, Stub.call "C"))
  /\ (let calls := functionCalls [Stub.workerCall "math_agent" "2+2";
                                  Stub.workerCall "code_agent" "sort"] in
      let r := Orchestrator.dispatchAll Stub.engine Stub.workers calls
                 (Stub.world (G := unit) tt) in
      dispatched r.1 = map (fun c => (1000%nat, c)) calls
      /\ r.2 = Fulfilled 200
                 [Orchestrator.respond (JsStr "math_agent") "result" (JsStr "4");
                  Orchestrator.respond (JsStr "code_agent") "result" (JsStr "code for sort")]
      /\ now r.1 = 1200%nat).
Proof.
  destruct (batch_timing (G := unit) (G' := unit) Stub.engine Stub.workers)
    as (Hseq & Hstart & Hall).
  split.
  - intros calls.
    destruct (Hseq (Stub.agent 20) (Stub.world tt) calls stub_tools_settle stub_tools_catchable)
      as (a' & w' & results & Hrun & Hnow & Hlen & Hat & _).
    exists a', w', results. split; [exact Hrun|]. split; [exact Hnow|]. split; [exact Hlen|].
    split.
    + exact (Hat 0%nat (Stub.call "A") eq_refl).
    + exact (Hat 1%nat (Stub.call "C") eq_refl).
  - intros calls r. split; [exact (Hstart calls (Stub.world tt))|].
    exact (Hall calls (Stub.world tt) _ stub_workers_answer).
Defined.








(** C9 as stated fails for a budget of zero: the first response is
    plain text, and [run] returns the failure result with [steps]
    equal to 0. *)
Lemma first_answer_with_zero_budget :
  Stub.scripted (gw (Stub.world (Args := JsValue) []))
    (firstRequest Stub.engine (Stub.agent 0) "hi" None)
  = ([], Fulfilled 5 [textPart "done"])
  /\ functionCalls (Args := JsValue) [textPart "done"] = []
  /\ (BaseAgent.run Stub.scripted Stub.engine (Stub.agent 0) (Stub.world []) "hi" None).2
     = Returned (BaseAgent.Failure "Max steps (0) reached" 0).
Proof. repeat split. Qed.

Lemma first_answer_is_step_one_witness :
  1 <= 20
  /\ exists a' w',
      BaseAgent.run Stub.scripted Stub.engine (Stub.agent 20) (Stub.world []) "hi" None
      = (a', w', Returned (BaseAgent.Success "done" 1 5))
      /\ BaseAgent.st_lastSteps (BaseAgent.getStats a') = 1.
Proof.
  split; [lia|].
  apply (first_answer_is_step_one Stub.scripted Stub.engine (Stub.agent 20)
           (Stub.world []) "hi" None [] 5 [textPart "done"]).
  - cbn. lia.
  - reflexivity.
  - reflexivity.
Defined.

Lemma debate_runs_all_rounds_witness :
  1 <= 2
  /\ exists w' rs v,
      Debate.runDebate Stub.counting {| Debate.gw := 0%nat; Debate.asked := [] |}
        {| Debate.dc_topic := "T"; Debate.dc_context := "C"; Debate.dc_rounds := Some 2 |}
      = (w', Returned {| Debate.topic := "T"; Debate.rounds := rs; Debate.verdict := v |})
      /\ length rs = 2%nat
      /\ length (Debate.asked w') = 5%nat.
Proof.
  split; [lia|].
  destruct (debate_runs_all_rounds Stub.counting
              (fun g m p => ex_intro _ (S g) (ex_intro _ 10%nat
                 (ex_intro _ ("reply " +:+ pretty g) eq_refl)))
              {| Debate.gw := 0%nat; Debate.asked := [] |} "T" "C" 2)
    as (w' & rs & v & exs & je & Hrun & Hlen & Hasked & Hexs & _); [lia|].
  exists w', rs, v. split; [exact Hrun|]. split; [exact Hlen|].
  rewrite Hasked, !length_app, Hexs. reflexivity.
Defined.

End OnStubs.

(** * The further statements on the test doubles *)

Section OnProbes.
Import Terms.

(** Every response of the model that asks once is valid for the SDK. *)
Lemma askOnce_valid : validResponses Probe.askOnce.
Proof.
  intros g rq g' ms ps. unfold Probe.askOnce.
  destruct g; intros [= _ _ <-]; reflexivity.
Qed.

(** X1 on a model that asks for tool [A] once and then answers. *)
Lemma run_accounting_witness :
  let r := BaseAgent.run Stub.scripted Stub.engine (Stub.agent 20)
             (Stub.world [[callPart "A" (JsObj [])]]) "hi" None in
  r.2 = Returned (BaseAgent.Success "done" 2 110)
  /\ BaseAgent.st_lastSteps (BaseAgent.getStats r.1.1) = 2
  /\ 0 <= 2 <= Z.max 0 20
  /\ length (sent r.1.2) = (0 + Z.to_nat 2 + 0)%nat.
Proof.
  intros r.
  assert (Hrun : r = (r.1.1, r.1.2, Returned (BaseAgent.Success "done" 2 110)))
    by (vm_compute; reflexivity).
  destruct (run_accounting Stub.scripted Stub.engine (Stub.agent 20) r.1.1
              (Stub.world [[callPart "A" (JsObj [])]]) r.1.2 "hi" None
              (BaseAgent.Success "done" 2 110) Hrun)
    as (H1 & H2 & _ & _ & H5).
  split; [rewrite Hrun; reflexivity|]. split; [exact H1|]. split; [exact H2 | exact H5].
Defined.

(** X2 on a model that first asks for [A] and for a tool that does
    not exist, then for [boom], which throws, and then answers: three
    calls are counted; with a budget of one step only the two calls of
    the first response are. *)
Lemma totalCalls_counts_requests_witness :
  let script := [[callPart "A" (JsObj []); callPart "nope" (JsObj [])];
                 [callPart "boom" (JsObj [])]] in
  (let r := BaseAgent.run Stub.scripted Stub.engine (Stub.agent 20)
              (Stub.world script) "hi" None in
   BaseAgent.st_totalCalls (BaseAgent.getStats r.1.1) = 3
   /\ length (dispatched r.1.2) = 3%nat)
  /\ (let r := BaseAgent.run Stub.scripted Stub.engine (Stub.agent 1)
                 (Stub.world script) "hi" None in
      BaseAgent.st_totalCalls (BaseAgent.getStats r.1.1) = 2
      /\ length (dispatched r.1.2) = 2%nat).
Proof.
  intros script. split.
  - exact (totalCalls_counts_requests Stub.scripted Stub.engine (Stub.agent 20)
             (Stub.world script) "hi" None script [textPart "done"]
             (scripted_replies script)
             ltac:(repeat constructor; discriminate) eq_refl
             stub_tools_settle stub_tools_catchable).
  - exact (totalCalls_counts_requests Stub.scripted Stub.engine (Stub.agent 1)
             (Stub.world script) "hi" None script [textPart "done"]
             (scripted_replies script)
             ltac:(repeat constructor; discriminate) eq_refl
             stub_tools_settle stub_tools_catchable).
Defined.

(** X3 on a model that asks for tool [A] once and then answers. *)
Lemma conversation_well_formed_witness :
  let r := BaseAgent.run Probe.askOnce Stub.engine (Stub.agent 20) (Stub.world false)
             "hi" None in
  exists turns,
    history (BaseAgent.chat r.1.1) = turns
    /\ (turns = []
        \/ exists response tail,
            turns = {| role := User; parts := [textPart "hi"] |}
                    :: {| role := Model; parts := response |} :: tail
            /\ answered ({| role := Model; parts := response |} :: tail)).
Proof.
  exact (conversation_well_formed Probe.askOnce Stub.engine (Stub.agent 20)
           (Stub.world false) "hi" None askOnce_valid).
Defined.

(** X4 on the scripted model and the stub tools. *)
Lemma run_settles_witness :
  (BaseAgent.run Stub.scripted Stub.engine (Stub.agent 20)
     (Stub.world [[callPart "boom" (JsObj [])]]) "hi" None).2 <> Hangs.
Proof.
  apply (run_settles Stub.scripted Stub.engine (Stub.agent 20)
           (Stub.world [[callPart "boom" (JsObj [])]]) "hi" None).
  - intros [|response rest] rq; discriminate.
  - exact stub_tools_settle.
Defined.


(** X6 on an agent with [maxSteps] 0 and a model that asks for tool
    [A]. *)
Lemma run_without_budget_witness :
  0 <= 0
  /\ exists a' w',
      BaseAgent.run Stub.scripted Stub.engine (Stub.agent 0)
        (Stub.world [[callPart "A" (JsObj [])]]) "hi" None
      = (a', w', Returned (BaseAgent.Failure "Max steps (0) reached" 0))
      /\ BaseAgent.st_totalCalls (BaseAgent.getStats a') = 0
      /\ dispatched w' = []
      /\ length (sent w') = 1%nat
      /\ history (BaseAgent.chat a')
         = [{| role := User; parts := [textPart "hi"] |};
            {| role := Model; parts := [callPart "A" (JsObj [])] |}].
Proof.
  split; [lia|].
  destruct (run_without_budget Stub.scripted Stub.engine (Stub.agent 0)
              (Stub.world [[callPart "A" (JsObj [])]]) "hi" None
              [] 5%nat [callPart "A" (JsObj [])])
    as (a' & w' & Hrun & Htotal & Hd & Hs & Hh).
  - cbn. lia.
  - reflexivity.
  - exists a', w'. split; [exact Hrun|]. split; [exact Htotal|]. split; [exact Hd|].
    split; [rewrite Hs; reflexivity | exact Hh].
Defined.

(** X7 on the empty string, which is falsy, and on the number 42. *)
Lemma context_injection_witness :
  BaseAgent.run Stub.scripted Stub.engine (Stub.agent 20) (Stub.world []) "hi"
    (Some (JsStr ""))
  = BaseAgent.run Stub.scripted Stub.engine (Stub.agent 20) (Stub.world []) "hi" None
  /\ exists more,
      sent (BaseAgent.run Stub.scripted Stub.engine (Stub.agent 20) (Stub.world []) "hi"
              (Some (JsNum 42%float))).1.2
      = {| rq_model := cs_model (BaseAgent.chat (Stub.agent 20));
           contents := [{| role := User;
                           parts := [textPart ("hi" +:+ nl +:+ nl +:+ "[Context]:" +:+ nl
                                               +:+ "42")] |}] |}
        :: more.
Proof.
  destruct (context_injection Stub.scripted Stub.engine (Stub.agent 20)
              (Stub.world []) "hi") as [Hfalsy Htruthy].
  split; [exact (Hfalsy (JsStr "") eq_refl) | exact (Htruthy (JsNum 42%float) eq_refl)].
Defined.

(** X9 on a model that always delegates and workers that are always
    fulfilled. *)
Lemma orchestrator_gives_up_witness :
  exists w',
    Orchestrator.run Probe.delegates Stub.engine Probe.steady Stub.orchestrator
      (Stub.world tt) "go"
    = (w', Returned "Orchestration complete")
    /\ length (sent w') = 6%nat.
Proof.
  apply (orchestrator_gives_up Probe.delegates Stub.engine Probe.steady Stub.orchestrator
           (Stub.world tt) "go").
  - intros g rq. exists tt, 10%nat, [Stub.workerCall "math_agent" "2+2"].
    split; [reflexivity|]. split; [discriminate|].
    constructor; [|constructor].
    exists "math_agent", "2+2". split; [split; reflexivity | reflexivity].
  - intros nm fn task. unfold Probe.steady. cbn [getOwn].
    repeat (destruct (String.eqb _ nm); [intros [= <-]; eauto|]).
    discriminate.
Defined.


(** X11 on a debate of no rounds. *)
Lemma debate_without_rounds_witness :
  0 <= 0
  /\ exists je,
      Debate.asked (Debate.runDebate Stub.counting {| Debate.gw := 0%nat; Debate.asked := [] |}
                      {| Debate.dc_topic := "T"; Debate.dc_context := "C";
                         Debate.dc_rounds := Some 0 |}).1
      = [je]
      /\ Debate.ex_system je = Debate.judgeSystem
      /\ Debate.ex_reply je = Fulfilled 10 "reply 0".
Proof.
  split; [lia|].
  destruct (debate_without_rounds Stub.counting {| Debate.gw := 0%nat; Debate.asked := [] |}
              "T" "C" 0)
    as (je & Hasked & Hsys & Hprompt & Hres); [lia|].
  exists je. split; [exact Hasked|]. split; [exact Hsys|].
  cbn in Hasked. injection Hasked as <-. reflexivity.
Defined.

(** X12 on a model whose third generation, the pro side of round 2,
    is rejected, and on a model that fails the judge. *)
Lemma debate_failure_witness :
  let cfg := {| Debate.dc_topic := "T"; Debate.dc_context := "C";
                Debate.dc_rounds := Some 3 |} in
  let w0 := {| Debate.gw := 0%nat; Debate.asked := [] |} in
  let failure (exs : list Debate.Exchange) :=
    (exists j : nat,
        (1 <= j <= 3)%nat
        /\ length exs = (2 * j)%nat
        /\ Forall (fun e => Debate.ex_system e = Debate.proSystem
                            \/ Debate.ex_system e = Debate.conSystem) exs
        /\ Forall (fun e => exists ms t, Debate.ex_reply e = Fulfilled ms t)
                  (take (2 * (j - 1)) exs)
        /\ exists e ms, In e (drop (2 * (j - 1)) exs)
                        /\ Debate.ex_reply e = Rejected ms (JsError "overloaded"))
    \/ (exists pre je ms,
           exs = pre ++ [je]
           /\ length pre = 6%nat
           /\ Forall (fun e => Debate.ex_system e = Debate.proSystem
                               \/ Debate.ex_system e = Debate.conSystem) pre
           /\ Forall (fun e => exists ms t, Debate.ex_reply e = Fulfilled ms t) pre
           /\ Debate.ex_system je = Debate.judgeSystem
           /\ Debate.ex_reply je = Rejected ms (JsError "overloaded")) in
  (let r := Debate.runDebate Probe.faltering w0 cfg in
   r.2 = Threw (JsError "overloaded")
   /\ length (Debate.asked r.1) = 4%nat
   /\ exists exs, Debate.asked r.1 = exs /\ failure exs)
  /\ (let r := Debate.runDebate Probe.unjudged w0 cfg in
      r.2 = Threw (JsError "overloaded")
      /\ length (Debate.asked r.1) = 7%nat
      /\ exists exs, Debate.asked r.1 = exs /\ failure exs).
Proof.
  intros cfg w0 failure. split.
  - intros r. split; [reflexivity|]. split; [reflexivity|].
    exact (debate_failure Probe.faltering w0 r.1 cfg (JsError "overloaded") eq_refl).
  - intros r. split; [reflexivity|]. split; [reflexivity|].
    exact (debate_failure Probe.unjudged w0 r.1 cfg (JsError "overloaded") eq_refl).
Defined.

Lemma mute_answers (g : nat) (m : GenerativeModel) (p : string) :
  exists g' ms t, Probe.mute g m p = (g', Fulfilled ms t).
Proof. unfold Probe.mute. eauto. Qed.

(** X13 on a con side that answers with the empty text. *)
Lemma debate_empty_argument_witness :
  exists w' res exs je,
    Debate.runDebate Probe.mute {| Debate.gw := 0%nat; Debate.asked := [] |}
      {| Debate.dc_topic := "T"; Debate.dc_context := "C"; Debate.dc_rounds := Some 2 |}
    = (w', Returned res)
    /\ Debate.asked w' = exs ++ [je]
    /\ exists pe ce,
        exs !! 2%nat = Some pe /\ exs !! 3%nat = Some ce
        /\ Debate.ex_prompt pe = Debate.openingPrompt "FOR" "T" "C"
        /\ Debate.ex_prompt ce = Debate.rebuttalPrompt "T" "C" "reply 0".
Proof.
  destruct (debate_empty_argument Probe.mute mute_answers
              {| Debate.gw := 0%nat; Debate.asked := [] |}
              {| Debate.dc_topic := "T"; Debate.dc_context := "C";
                 Debate.dc_rounds := Some 2 |})
    as (w' & res & exs & je & Hrun & Hasked & Hprompts).
  exists w', res, exs, je. split; [exact Hrun|]. split; [exact Hasked|].
  cbn in Hrun. injection Hrun as _ <-.
  exact (Hprompts 0%nat {| Debate.pro := "reply 0"; Debate.con := "" |} eq_refl
           (le_n 2)).
Defined.

(** X14 on a debate of the default two rounds. *)
Lemma judge_sees_every_round_witness :
  exists w' res exs je,
    Debate.runDebate Stub.counting {| Debate.gw := 0%nat; Debate.asked := [] |}
      {| Debate.dc_topic := "T"; Debate.dc_context := "C"; Debate.dc_rounds := None |}
    = (w', Returned res)
    /\ length (Debate.rounds res) = 2%nat
    /\ Debate.asked w' = exs ++ [je]
    /\ includes "reply 0" (Debate.ex_prompt je)
    /\ includes "reply 3" (Debate.ex_prompt je).
Proof.
  destruct (judge_sees_every_round Stub.counting
              (fun g m p => ex_intro _ (S g) (ex_intro _ 10%nat
                 (ex_intro _ ("reply " +:+ pretty g) eq_refl)))
              {| Debate.gw := 0%nat; Debate.asked := [] |}
              {| Debate.dc_topic := "T"; Debate.dc_context := "C";
                 Debate.dc_rounds := None |})
    as (w' & res & exs & je & Hrun & Hlen & Hasked & _ & _ & _ & Hall).
  exists w', res, exs, je. split; [exact Hrun|]. split; [exact Hlen|].
  split; [exact Hasked|].
  cbn in Hrun. injection Hrun as _ <-.
  split.
  - exact (proj1 (Hall {| Debate.pro := "reply 0"; Debate.con := "reply 1" |}
                    (or_introl eq_refl))).
  - exact (proj2 (Hall {| Debate.pro := "reply 2"; Debate.con := "reply 3" |}
                    (or_intror (or_introl eq_refl)))).
Defined.


End OnProbes.
